(** * Veo Creative Studio: the Gemini service layer

    A shallow embedding of [src/services/geminiService.ts]: the PCM to
    WAV container writer ([pcmToWav], [writeString]) and the exported
    generation operations ([enhancePrompt], [generateVeoVideo],
    [generateTextToSpeech], [generateClonedSpeech]) together with the
    helpers they call ([getAiClient], [decodeAudio]).

    Conventions.
    - A JavaScript [number] that the code uses as an integer (lengths,
      offsets, the sample rate, field values) is a [Z]; the wrap-around
      that [DataView] applies when it stores one is written out.
    - An [ArrayBuffer] / [Uint8Array] is a [list Z] of byte values,
      updated by index with stdpp's list insert; an access outside the
      buffer is the [RangeError] that [DataView] throws.
    - A value that may be [undefined] is an [option].
    - A thrown value is an [Exn]; code that may throw returns a [result]. *)

From Stdlib Require Import ZArith String Ascii List Lia Bool.
From stdpp Require Import base list strings.
Import ListNotations.

Local Open Scope Z_scope.
Local Open Scope string_scope.

(** ** Thrown values and results *)

(** A JavaScript error object: its [name] and its [message]. *)
Record Exn := mkExn { exn_name : string; exn_message : string }.

(** [new Error(message)] *)
Definition Error (message : string) : Exn := mkExn "Error" message.

(** The error [DataView] throws for an access outside its buffer. *)
Definition RangeError (message : string) : Exn := mkExn "RangeError" message.

Inductive result (A : Type) : Type :=
| Ok (a : A)
| Thrown (e : Exn).
Arguments Ok {A} a.
Arguments Thrown {A} e.

Definition result_bind {A B : Type} (r : result A) (k : A -> result B) : result B :=
  match r with
  | Ok a => k a
  | Thrown e => Thrown e
  end.

Declare Scope result_scope.
Delimit Scope result_scope with result.
Notation "'let*' x ':=' r 'in' k" := (result_bind r (fun x => k))
  (at level 10, x name, r at level 200, k at level 200) : result_scope.

(** ** Truthiness *)

(** [!!s] for [s : string | undefined]: [undefined] and the empty string
    are falsy, every other string is truthy. *)
Definition truthy (s : option string) : bool :=
  match s with
  | Some s => negb (String.eqb s EmptyString)
  | None => false
  end.

(** [a || b] on values of type [string | undefined]. *)
Definition js_or (a b : option string) : option string :=
  if truthy a then a else b.

(** ** DataView over an ArrayBuffer *)

Module DataView.

(** [new ArrayBuffer(n)]: [n] zero bytes. *)
Definition new_ArrayBuffer (n : nat) : list Z := replicate n 0.

(** The [n] low bytes of [v], least significant first: what
    [ToUint8] / [ToUint16] / [ToUint32] followed by a little-endian
    store leave in memory. *)
Fixpoint le_bytes (n : nat) (v : Z) : list Z :=
  match n with
  | O => []
  | S n' => Z.land v 255 :: le_bytes n' (Z.shiftr v 8)
  end.

(** Store [bs] at consecutive indices from [offset]. *)
Fixpoint store (view : list Z) (offset : nat) (bs : list Z) : list Z :=
  match bs with
  | [] => view
  | b :: bs' => store (<[offset := b]> view) (S offset) bs'
  end.

(** The common body of the [setUintN] methods: a bounds check
    ([RangeError] when the [n] bytes do not fit), then the store in
    the requested byte order. *)
Definition setUint (n : nat) (view : list Z) (byteOffset : nat) (value : Z)
    (littleEndian : bool) : result (list Z) :=
  if (byteOffset + n <=? length view)%nat
  then Ok (store view byteOffset
             (if littleEndian then le_bytes n value else rev (le_bytes n value)))
  else Thrown (RangeError "Offset is outside the bounds of the DataView").

Definition setUint8 (view : list Z) (byteOffset : nat) (value : Z) : result (list Z) :=
  setUint 1 view byteOffset value true.

Definition setUint16 := setUint 2.
Definition setUint32 := setUint 4.

(** Reading back: the value of the [n] bytes at [offset], least
    significant byte first. *)
Fixpoint le_value (bs : list Z) : Z :=
  match bs with
  | [] => 0
  | b :: bs' => b + 256 * le_value bs'
  end.

Definition getUint (n : nat) (bytes : list Z) (byteOffset : nat) : Z :=
  le_value (take n (drop byteOffset bytes)).

End DataView.

(** ** The WAV writer *)

(** [string.charCodeAt(i)] for each [i]: the code units of a string. *)
Definition charCodes (s : string) : list Z :=
  map (fun c => Z.of_nat (nat_of_ascii c)) (list_ascii_of_string s).

(** [writeString]: one [setUint8] per character, at [offset + i]. *)
Fixpoint writeString_from (view : list Z) (offset : nat) (codes : list Z)
    : result (list Z) :=
  match codes with
  | [] => Ok view
  | c :: codes' =>
      (let* view' := DataView.setUint8 view offset c in
       writeString_from view' (S offset) codes')%result
  end.

Definition writeString (view : list Z) (offset : nat) (string : string)
    : result (list Z) :=
  writeString_from view offset (charCodes string).

(** A [Blob]: its bytes (the parts it was built from, concatenated) and
    its MIME type. *)
Record Blob := mkBlob { blob_bytes : list Z; blob_type : string }.

(** [new Blob(parts, { type })] *)
Definition new_Blob (parts : list (list Z)) (type : string) : Blob :=
  mkBlob (concat parts) type.

(** [sampleRate] is taken integer-valued, as every rate in use is. *)
Definition pcmToWav (pcmData : list Z) (sampleRate : Z) : result Blob :=
  let numChannels := 1 in
  let bitsPerSample := 16 in
  let blockAlign := (numChannels * bitsPerSample) / 8 in
  let byteRate := sampleRate * blockAlign in
  let dataSize := Z.of_nat (length pcmData) in
  let fileSize := 36 + dataSize in
  let header := DataView.new_ArrayBuffer 44 in
  (* "RIFF" chunk descriptor *)
  (let* view := writeString header 0 "RIFF" in
   let* view := DataView.setUint32 view 4 fileSize true in
   let* view := writeString view 8 "WAVE" in
   (* "fmt " sub-chunk *)
   let* view := writeString view 12 "fmt " in
   let* view := DataView.setUint32 view 16 16 true in
   let* view := DataView.setUint16 view 20 1 true in
   let* view := DataView.setUint16 view 22 numChannels true in
   let* view := DataView.setUint32 view 24 sampleRate true in
   let* view := DataView.setUint32 view 28 byteRate true in
   let* view := DataView.setUint16 view 32 blockAlign true in
   let* view := DataView.setUint16 view 34 bitsPerSample true in
   (* "data" sub-chunk *)
   let* view := writeString view 36 "data" in
   let* view := DataView.setUint32 view 40 dataSize true in
   Ok (new_Blob [view; pcmData] "audio/wav"))%result.


(** ** The provider and the browser, as the service sees them *)

(** [enum AspectRatio] of [types.ts], with the strings it stands for. *)
Inductive AspectRatio := LANDSCAPE | PORTRAIT.

Definition AspectRatio_value (a : AspectRatio) : string :=
  match a with
  | LANDSCAPE => "16:9"
  | PORTRAIT => "9:16"
  end.

(** [new GoogleGenAI({ apiKey })] *)
Record GoogleGenAI := mkGoogleGenAI { client_apiKey : string }.

(** [operation.error]: of this object the service reads [message] only. *)
Record OperationError := mkOperationError { error_message : option string }.

(** A long-running video operation as the provider reports it.  [done]
    is only ever read as [!operation.done], so a missing flag is
    [false]; [videoUri] is what
    [operation.response?.generatedVideos?.[0]?.video?.uri] evaluates to. *)
Record Operation := mkOperation {
  op_name : string;
  done : bool;
  error : option OperationError;
  videoUri : option string
}.

(** The argument of [ai.models.generateVideos]. *)
Record GenerateVideosParameters := mkGenerateVideosParameters {
  gv_model : string;
  gv_prompt : string;
  gv_imageBytes : string;
  gv_mimeType : string;
  gv_numberOfVideos : Z;
  gv_resolution : string;
  gv_aspectRatio : AspectRatio
}.

(** One element of [contents[0].parts]. *)
Inductive Part :=
| TextPart (text : string)
| InlineDataPart (mimeType data : string).

(** The argument of [ai.models.generateContent]: the model, the parts of
    the single content, and what the [config] object carries. *)
Record GenerateContentParameters := mkGenerateContentParameters {
  gc_model : string;
  gc_parts : list Part;
  gc_systemInstruction : option string;
  gc_audio : bool;                 (* responseModalities: [Modality.AUDIO] *)
  gc_voiceName : option string     (* speechConfig...prebuiltVoiceConfig *)
}.

(** Of a [generateContent] response the service reads [response.text]
    and [response.candidates?.[0]?.content?.parts?.[0]?.inlineData?.data]. *)
Record GenerateContentResponse := mkGenerateContentResponse {
  resp_text : option string;
  resp_inlineData : option string
}.

(** What a run can observe of the outside world, in the order it
    happened. *)
Inductive Event :=
| Progress (msg : string)                                        (* onProgress(msg) *)
| GenerateVideos (ai : GoogleGenAI) (params : GenerateVideosParameters)
| Sleep (ms : Z)                                                 (* setTimeout(resolve, ms) *)
| GetVideosOperation (ai : GoogleGenAI) (operation : Operation)  (* one poll *)
| GenerateContent (ai : GoogleGenAI) (params : GenerateContentParameters)
| CreateObjectURL (blob : Blob).

(** The world a call runs in: the environment key, what the provider
    answers to each request (the [k]-th poll, counted from 0, is answered
    by [getVideosOperation_response k]), and the two browser built-ins. *)
Record World := mkWorld {
  env_API_KEY : option string;
  generateVideos_response : result Operation;
  getVideosOperation_response : nat -> result Operation;
  generateContent_response : result GenerateContentResponse;
  atob : string -> result string;
  createObjectURL : Blob -> string
}.

(** The state a run threads: the events so far (oldest first) and the
    number of polls issued. *)
Record State := mkState { trace : list Event; polls : nat }.

Definition init : State := mkState [] 0.

(** How an [async] function has settled, or [Pending] when the bound on
    the number of loop iterations ran out before it did. *)
Inductive outcome (A : Type) : Type :=
| Resolved (a : A)
| Rejected (e : Exn)
| Pending.
Arguments Resolved {A} a.
Arguments Rejected {A} e.
Arguments Pending {A}.

Definition M (A : Type) : Type := World -> State -> outcome A * State.

Definition ret {A : Type} (a : A) : M A := fun _ st => (Resolved a, st).

Definition throw {A : Type} (e : Exn) : M A := fun _ st => (Rejected e, st).

Definition pending {A : Type} : M A := fun _ st => (Pending, st).

Definition bind {A B : Type} (m : M A) (k : A -> M B) : M B :=
  fun w st =>
    match m w st with
    | (Resolved a, st') => k a w st'
    | (Rejected e, st') => (Rejected e, st')
    | (Pending, st') => (Pending, st')
    end.

Declare Scope service_scope.
Delimit Scope service_scope with service.
Notation "'let!' x ':=' m 'in' k" := (bind m (fun x => k))
  (at level 10, x name, m at level 200, k at level 200) : service_scope.
Local Open Scope service_scope.

(** [await] of a promise the outside world settles. *)
Definition settle {A : Type} (r : result A) : M A :=
  match r with
  | Ok a => ret a
  | Thrown e => throw e
  end.

Definition emit (e : Event) : M unit :=
  fun _ st => (Resolved tt, mkState (trace st ++ [e]) (polls st)).

Definition process_env_API_KEY : M (option string) :=
  fun w st => (Resolved (env_API_KEY w), st).

(** The progress callback.  [generateVeoVideo] receives it as its last
    argument; here every call of it is the [Progress] event it leaves in
    the trace, and it returns without throwing. *)
Definition onProgress (msg : string) : M unit := emit (Progress msg).

Definition models_generateVideos (ai : GoogleGenAI) (params : GenerateVideosParameters)
    : M Operation :=
  let! _ := emit (GenerateVideos ai params) in
  fun w => settle (generateVideos_response w) w.

Definition sleep (ms : Z) : M unit := emit (Sleep ms).

Definition operations_getVideosOperation (ai : GoogleGenAI) (operation : Operation)
    : M Operation :=
  fun w st =>
    settle (getVideosOperation_response w (polls st)) w
      (mkState (trace st ++ [GetVideosOperation ai operation]) (S (polls st))).

Definition models_generateContent (ai : GoogleGenAI) (params : GenerateContentParameters)
    : M GenerateContentResponse :=
  let! _ := emit (GenerateContent ai params) in
  fun w => settle (generateContent_response w) w.

Definition URL_createObjectURL (blob : Blob) : M string :=
  let! _ := emit (CreateObjectURL blob) in
  fun w => ret (createObjectURL w blob) w.

(** ** The service: [geminiService.ts] *)

(** [String(v)] as a template literal applies it to [string | undefined]. *)
Definition to_String (v : option string) : string :=
  match v with
  | Some s => s
  | None => "undefined"
  end.

(** [s || d] for a string [s] and a default [d]. *)
Definition or_default (s : option string) (d : string) : string :=
  if truthy s then to_String s else d.

Definition API_KEY_NOT_FOUND : string :=
  "API Key not found. Please select a project or enter a key in settings.".

Definition getAiClient (explicitKey : option string) : M GoogleGenAI :=
  let! envKey := process_env_API_KEY in
  let apiKey := js_or explicitKey envKey in
  if negb (truthy apiKey)
  then throw (Error API_KEY_NOT_FOUND)
  else ret (mkGoogleGenAI (to_String apiKey)).

(** [decodeAudio]: [atob], then one byte per character of the result. *)
Definition decodeAudio (base64String : string) : M (list Z) :=
  let! binaryString := (fun w => settle (atob w base64String) w) in
  ret (map (fun c => c mod 256) (charCodes binaryString)).

Definition ENHANCE_INSTRUCTION : string :=
  "You are an expert prompt engineer for video generation models. Convert the user's short input or keywords into a detailed, visually rich prompt suitable for generating a video. Focus on movement, lighting, camera angles, and atmosphere. Keep the result concise (max 2-3 sentences). Output ONLY the enhanced prompt text.".

Definition enhancePrompt (apiKey : option string) (input : string) : M string :=
  let! ai := getAiClient apiKey in
  let! response := models_generateContent ai
    (mkGenerateContentParameters "gemini-2.5-flash" [TextPart input]
       (Some ENHANCE_INSTRUCTION) false None) in
  ret (or_default (resp_text response) input).

(** The polling loop of [generateVeoVideo].  [fuel] bounds the number of
    iterations; the source has no bound, and a run that needs more than
    [fuel] iterations is [Pending]. *)
Fixpoint poll_loop (fuel : nat) (ai : GoogleGenAI) (operation : Operation)
    : M Operation :=
  if negb (done operation) then
    match fuel with
    | O => pending
    | S fuel' =>
        let! _ := sleep 5000 in   (* Check every 5 seconds *)
        let! _ := onProgress "Still rendering..." in
        (* Refresh operation status *)
        let! operation := operations_getVideosOperation ai operation in
        poll_loop fuel' ai operation
    end
  else ret operation.

(** [generateVeoVideo]: [fuel] is the bound passed to the polling loop,
    and the [onProgress] argument is the trace (see [onProgress]). *)
Definition generateVeoVideo (fuel : nat) (apiKey : option string)
    (prompt imageBase64 mimeType : string) (aspectRatio : AspectRatio) : M string :=
  let! ai := getAiClient apiKey in
  let! _ := onProgress "Initializing video generation..." in
  let! operation := models_generateVideos ai
    (mkGenerateVideosParameters "veo-3.1-fast-generate-preview"
       (or_default (Some prompt) "Animate this image")
       imageBase64 mimeType 1 "720p" aspectRatio) in
  let! _ := onProgress "Rendering video... This may take a moment." in
  (* Polling loop *)
  let! operation := poll_loop fuel ai operation in
  match error operation with
  | Some e =>
      throw (Error (or_default (error_message e) "Video generation failed"))
  | None =>
      let videoUri := videoUri operation in
      if negb (truthy videoUri)
      then throw (Error "No video URI returned from the API.")
      else
        (* The URI needs the API key appended to be accessible *)
        let! envKey := process_env_API_KEY in
        let effectiveKey := js_or apiKey envKey in
        ret (to_String videoUri ++ "&key=" ++ to_String effectiveKey)
  end.

(** [voiceName] is the optional third argument, [Kore] when omitted. *)
Definition generateTextToSpeech (apiKey : option string) (text : string)
    (voiceName : option string) : M string :=
  let voiceName := match voiceName with Some v => v | None => "Kore" end in
  let! ai := getAiClient apiKey in
  let! response := models_generateContent ai
    (mkGenerateContentParameters "gemini-2.5-flash-preview-tts" [TextPart text]
       None true (Some voiceName)) in
  let base64Audio := resp_inlineData response in
  if negb (truthy base64Audio)
  then throw (Error "No audio data generated.")
  else
    (* Convert base64 to blob URL for playback *)
    let! audioBytes := decodeAudio (to_String base64Audio) in
    let! wavBlob := settle (pcmToWav audioBytes 24000) in
    URL_createObjectURL wavBlob.

Definition dquote : string := String "034"%char EmptyString.

Definition generateClonedSpeech (apiKey : option string)
    (text audioBase64 mimeType : string) : M string :=
  let! ai := getAiClient apiKey in
  let! response := models_generateContent ai
    (mkGenerateContentParameters "gemini-2.5-flash-native-audio-preview-09-2025"
       [InlineDataPart mimeType audioBase64;
        TextPart ("Please read the following text. Mimic the voice, tone, and speaking style of the speaker in the provided audio clip as closely as possible. Text to read: "
                  ++ dquote ++ text ++ dquote)]
       None true None) in
  let base64Audio := resp_inlineData response in
  if negb (truthy base64Audio)
  then throw (Error "No audio data generated.")
  else
    let! audioBytes := decodeAudio (to_String base64Audio) in
    (* Native audio model often outputs 24kHz. *)
    let! wavBlob := settle (pcmToWav audioBytes 24000) in
    URL_createObjectURL wavBlob.

(** A call from the initial state. *)
Definition run {A : Type} (m : M A) (w : World) : outcome A * State := m w init.

(** ** Vocabulary of the statements *)

(** The header [pcmToWav] writes, in closed form, for a payload of
    [n] bytes at rate [r]. *)
Definition wav_header (n : nat) (r : Z) : list Z :=
  charCodes "RIFF" ++ DataView.le_bytes 4 (36 + Z.of_nat n) ++ charCodes "WAVE"
  ++ charCodes "fmt " ++ DataView.le_bytes 4 16 ++ DataView.le_bytes 2 1
  ++ DataView.le_bytes 2 1 ++ DataView.le_bytes 4 r ++ DataView.le_bytes 4 (r * 2)
  ++ DataView.le_bytes 2 2 ++ DataView.le_bytes 2 16
  ++ charCodes "data" ++ DataView.le_bytes 4 (Z.of_nat n).

(** A provider that answers the polls with the responses of [l], in
    order, and with [d] from then on. *)
Definition scripted (l : list (result Operation)) (d : result Operation)
    : nat -> result Operation :=
  fun k => nth k l d.

(** The response that produced the operation a run holds after [n]
    polls: the submission's when [n = 0], else that of the last poll. *)
Definition last_response (w : World) (n : nat) : result Operation :=
  match n with
  | O => generateVideos_response w
  | S k => getVideosOperation_response w k
  end.

(** The key both [getAiClient] and the returned URL use. *)
Definition effectiveKey (w : World) (apiKey : option string) : option string :=
  js_or apiKey (env_API_KEY w).

(** The events of one iteration of the polling loop that enters with
    [operation]. *)
Definition iteration (ai : GoogleGenAI) (operation : Operation) : list Event :=
  [Sleep 5000; Progress "Still rendering..."; GetVideosOperation ai operation].

(** The request [generateVeoVideo] submits. *)
Definition submission (prompt imageBase64 mimeType : string) (aspectRatio : AspectRatio)
    : GenerateVideosParameters :=
  mkGenerateVideosParameters "veo-3.1-fast-generate-preview"
    (or_default (Some prompt) "Animate this image")
    imageBase64 mimeType 1 "720p" aspectRatio.

(** What the polling loop makes of the response that produced the
    operation it holds: it rejects with what a poll threw, returns an
    operation that is done, and is still looping on one that is not. *)
Definition loop_outcome (r : result Operation) : outcome Operation :=
  match r with
  | Thrown e => Rejected e
  | Ok operation => if done operation then Resolved operation else Pending
  end.

(** What [generateVeoVideo] makes of it, with the key [key]. *)
Definition final_outcome (key : option string) (r : result Operation) : outcome string :=
  match loop_outcome r with
  | Resolved operation =>
      match error operation with
      | Some e => Rejected (Error (or_default (error_message e) "Video generation failed"))
      | None =>
          if truthy (videoUri operation)
          then Resolved (to_String (videoUri operation) ++ "&key=" ++ to_String key)
          else Rejected (Error "No video URI returned from the API.")
      end
  | Rejected e => Rejected e
  | Pending => Pending
  end.

(** A world for video runs: the key, the answer to the submission and
    the answers to the polls.  The content endpoint and the browser
    built-ins, which [generateVeoVideo] does not consult, are inert. *)
Definition video_world (key : option string) (submit : result Operation)
    (poll : nat -> result Operation) : World :=
  mkWorld key submit poll (Thrown (Error "not a content request"))
    (fun s => Ok s) (fun _ => "blob:").

(** Operations for the examples: not done, done with a result, and with
    an error field. *)
Definition running (name : string) : Operation := mkOperation name false None None.

Definition finished (name uri : string) : Operation :=
  mkOperation name true None (Some uri).

Definition failing (name : string) (isDone : bool) (message : string) : Operation :=
  mkOperation name isDone (Some (mkOperationError (Some message))) None.

(** The two kinds of request a video run sends to the provider. *)
Definition is_submission (e : Event) : bool :=
  match e with
  | GenerateVideos _ _ => true
  | _ => false
  end.

Definition is_poll (e : Event) : bool :=
  match e with
  | GetVideosOperation _ _ => true
  | _ => false
  end.

(** The ways a video run that made [n] polls can fail with [e]: the
    four of the error taxonomy, and the missing key. *)
Inductive Failure (w : World) (apiKey : option string) (n : nat) : Exn -> Prop :=
| KeyNotFound :
    truthy (effectiveKey w apiKey) = false ->
    n = O ->
    Failure w apiKey n (Error API_KEY_NOT_FOUND)
| SubmissionFailed (e : Exn) :
    truthy (effectiveKey w apiKey) = true ->
    n = O ->
    generateVideos_response w = Thrown e ->
    Failure w apiKey n e
| PollingFailed (k : nat) (e : Exn) :
    truthy (effectiveKey w apiKey) = true ->
    n = S k ->
    getVideosOperation_response w k = Thrown e ->
    Failure w apiKey n e
| JobReportedError (operation : Operation) (err : OperationError) :
    truthy (effectiveKey w apiKey) = true ->
    last_response w n = Ok operation ->
    done operation = true ->
    error operation = Some err ->
    Failure w apiKey n
      (Error (or_default (error_message err) "Video generation failed"))
| MissingResult (operation : Operation) :
    truthy (effectiveKey w apiKey) = true ->
    last_response w n = Ok operation ->
    done operation = true ->
    error operation = None ->
    truthy (videoUri operation) = false ->
    Failure w apiKey n (Error "No video URI returned from the API.").

(** Worlds for the examples.  In each the environment key is [K] and the
    submission returns a handle that is not done; they differ in what
    the polls answer. *)
Definition no_more_responses : result Operation :=
  Thrown (Error "no further response").

(** Two polls that are not done, then the result. *)
Definition world_three_polls : World :=
  video_world (Some "K") (Ok (running "job"))
    (scripted [Ok (running "job"); Ok (running "job");
               Ok (finished "job" "https://video.example/1?alt=media")]
       no_more_responses).

(** A poll that is not done, then one that is done and carries an error. *)
Definition world_done_error : World :=
  video_world (Some "K") (Ok (running "job"))
    (scripted [Ok (running "job"); Ok (failing "job" true "quota exceeded")]
       no_more_responses).

(** A poll that carries an error but is not done, then the result. *)
Definition world_error_not_done : World :=
  video_world (Some "K") (Ok (running "job"))
    (scripted [Ok (failing "job" false "quota exceeded");
               Ok (finished "job" "https://video.example/1?alt=media")]
       no_more_responses).

(** No key anywhere, and a provider that would answer every request
    with a finished job. *)
Definition world_no_key : World :=
  video_world None (Ok (finished "job" "https://video.example/1?alt=media"))
    (fun _ => Ok (finished "job" "https://video.example/1?alt=media")).

(** ** The components that call the service *)

(** *** Built-ins the components use *)

(** The white space [String.prototype.trim] strips, among code units
    below 256: TAB, LF, VT, FF, CR, SPACE and NBSP. *)
Definition is_white_space (c : ascii) : bool :=
  let n := nat_of_ascii c in
  ((9 <=? n) && (n <=? 13) || (n =? 32) || (n =? 160))%nat.

Fixpoint trimStart (s : string) : string :=
  match s with
  | EmptyString => EmptyString
  | String c s' => if is_white_space c then trimStart s' else s
  end.

Fixpoint trimEnd (s : string) : string :=
  match s with
  | EmptyString => EmptyString
  | String c s' =>
      match trimEnd s' with
      | EmptyString => if is_white_space c then EmptyString else String c EmptyString
      | t => String c t
      end
  end.

(** [s.trim()] *)
Definition trim (s : string) : string := trimEnd (trimStart s).

(** [s.split(sep)] for a one-character separator. *)
Fixpoint split (sep : ascii) (s : string) : list string :=
  match s with
  | EmptyString => [EmptyString]
  | String c s' =>
      if Ascii.eqb c sep then EmptyString :: split sep s'
      else match split sep s' with
           | [] => [String c EmptyString]
           | piece :: pieces => String c piece :: pieces
           end
  end.

(** [localStorage]: the item stored under each key, if any. *)
Definition Storage : Type := string -> option string.

Definition getItem (ls : Storage) (key : string) : option string := ls key.

Definition setItem (ls : Storage) (key value : string) : Storage :=
  fun k => if String.eqb k key then Some value else ls k.

Definition removeItem (ls : Storage) (key : string) : Storage :=
  fun k => if String.eqb k key then None else ls k.

(** [err.message || fallback] for a caught error. *)
Definition message_or (err : Exn) (fallback : string) : string :=
  or_default (Some (exn_message err)) fallback.

(** *** [types.ts] *)

Inductive AppMode := VIDEO | AUDIO.

Record VideoGenerationState := mkVideoGenerationState {
  vg_isGenerating : bool;
  vg_progressMessage : string;
  vg_videoUri : option string;
  vg_error : option string
}.

Record AudioGenerationState := mkAudioGenerationState {
  ag_isGenerating : bool;
  ag_audioUrl : option string;
  ag_error : option string
}.

Inductive VoiceName := Kore | Puck | Charon | Fenrir | Zephyr.

Definition VoiceName_value (v : VoiceName) : string :=
  match v with
  | Kore => "Kore"
  | Puck => "Puck"
  | Charon => "Charon"
  | Fenrir => "Fenrir"
  | Zephyr => "Zephyr"
  end.

(** *** [VeoStudio] *)

Module VeoStudio.

Record Props := mkProps { apiKeyReady : bool; apiKey : option string }.

(** The state hooks of the component. *)
Record Hooks := mkHooks {
  selectedImage : option string;
  imageMimeType : string;
  prompt : string;
  isEnhancing : bool;
  aspectRatio : AspectRatio;
  state : VideoGenerationState
}.

Definition setState (h : Hooks) (s : VideoGenerationState) : Hooks :=
  mkHooks (selectedImage h) (imageMimeType h) (prompt h) (isEnhancing h)
    (aspectRatio h) s.

Definition setPrompt (h : Hooks) (p : string) : Hooks :=
  mkHooks (selectedImage h) (imageMimeType h) p (isEnhancing h)
    (aspectRatio h) (state h).

Definition setIsEnhancing (h : Hooks) (b : bool) : Hooks :=
  mkHooks (selectedImage h) (imageMimeType h) (prompt h) b
    (aspectRatio h) (state h).

(** The progress callback the component passes to [generateVeoVideo]:
    [(msg) => setState(prev => ({ ...prev, progressMessage: msg }))],
    applied to the [Progress] events of a trace in order. *)
Definition on_progress (s : VideoGenerationState) (e : Event) : VideoGenerationState :=
  match e with
  | Progress msg =>
      mkVideoGenerationState (vg_isGenerating s) msg (vg_videoUri s) (vg_error s)
  | _ => s
  end.

(** [handleEnhancePrompt]: the hooks when the handler has run as far as
    it can, and what the service did. *)
Definition handleEnhancePrompt (props : Props) (h : Hooks) (w : World) : Hooks * State :=
  if negb (truthy (Some (trim (prompt h)))) || negb (apiKeyReady props)
  then (h, init)
  else
    let h := setIsEnhancing h true in
    match run (enhancePrompt (apiKey props) (prompt h)) w with
    | (Resolved enhanced, st) => (setIsEnhancing (setPrompt h enhanced) false, st)
    | (Rejected err, st) =>
        (* Silently fail or minimal indication as this is a convenience feature *)
        (setIsEnhancing h false, st)
    | (Pending, st) => (h, st)
    end.

(** [handleGenerate].  [selectedImage.split(',')[1]] is [undefined] for
    an image string without a comma; the request type has no place for
    an undefined image, and the handler is modelled on the other
    inputs: on such a string the result is [None]. *)
Definition handleGenerate (fuel : nat) (props : Props) (h : Hooks) (w : World)
    : option (Hooks * State) :=
  if negb (truthy (selectedImage h)) || negb (apiKeyReady props)
  then Some (h, init)
  else
    (* Extract base64 part *)
    match nth_error (split "," (to_String (selectedImage h))) 1 with
    | None => None
    | Some base64Data =>
        let s0 := mkVideoGenerationState true "Initializing..." None None in
        match run (generateVeoVideo fuel (apiKey props) (prompt h) base64Data
                     (imageMimeType h) (aspectRatio h)) w with
        | (Resolved videoUri, st) =>
            Some (setState h (mkVideoGenerationState false "Done!" (Some videoUri) None), st)
        | (Rejected err, st) =>
            Some (setState h
                    (mkVideoGenerationState false EmptyString None
                       (Some (message_or err "An unexpected error occurred"))), st)
        | (Pending, st) =>
            Some (setState h (fold_left on_progress (trace st) s0), st)
        end
    end.

End VeoStudio.

(** *** [AudioStudio] *)

Module AudioStudio.

Record Props := mkProps { apiKeyReady : bool; apiKey : option string }.

Inductive AudioMode := PRESET | CLONE.

Record CloneFile := mkCloneFile { name : string; base64 : string; mimeType : string }.

Record Hooks := mkHooks {
  text : string;
  mode : AudioMode;
  selectedVoice : VoiceName;
  cloneFile : option CloneFile;
  state : AudioGenerationState
}.

Definition setState (h : Hooks) (s : AudioGenerationState) : Hooks :=
  mkHooks (text h) (mode h) (selectedVoice h) (cloneFile h) s.

Definition handleGenerate (props : Props) (h : Hooks) (w : World) : Hooks * State :=
  if negb (truthy (Some (trim (text h)))) || negb (apiKeyReady props)
  then (h, init)
  else if (match mode h with CLONE => true | PRESET => false end)
          && (match cloneFile h with None => true | Some _ => false end)
  then (h, init)
  else
    let url : M string :=
      match mode h with
      | PRESET =>
          generateTextToSpeech (apiKey props) (text h)
            (Some (VoiceName_value (selectedVoice h)))
      | CLONE =>
          match cloneFile h with
          | None => throw (Error "No voice sample provided")
          | Some f => generateClonedSpeech (apiKey props) (text h) (base64 f) (mimeType f)
          end
      end in
    match run url w with
    | (Resolved url, st) =>
        (setState h (mkAudioGenerationState false (Some url) None), st)
    | (Rejected err, st) =>
        (setState h
           (mkAudioGenerationState false None
              (Some (message_or err "Failed to generate speech"))), st)
    | (Pending, st) =>
        (setState h (mkAudioGenerationState true None None), st)
    end.

End AudioStudio.

(** *** [App] and the key helpers of the service *)

(** [window.aistudio]: each of its two methods may be missing; when it
    is there, the value is what the promise it returns settles with. *)
Record AiStudio := mkAiStudio {
  hasSelectedApiKey : option (result bool);
  openSelectKey : option (result unit)
}.

Definition checkApiKey (aistudio : option AiStudio) : result bool :=
  match aistudio with
  | Some a =>
      match hasSelectedApiKey a with
      | Some r => r
      | None => Ok false
      end
  | None => Ok false   (* Fallback or dev environment without the injected script *)
  end.

(** [openApiKeySelection]: how it settles, and what it wrote with
    [console.warn]. *)
Definition openApiKeySelection (aistudio : option AiStudio) : result unit * list string :=
  match aistudio with
  | Some a =>
      match openSelectKey a with
      | Some r => (r, [])
      | None => (Ok tt, ["AI Studio key selection not available in this environment."])
      end
  | None => (Ok tt, ["AI Studio key selection not available in this environment."])
  end.

Module App.

Record Hooks := mkHooks {
  apiKeyReady : bool;
  mode : AppMode;
  showSettings : bool;
  customApiKey : string
}.

Definition setApiKeyReady (h : Hooks) (b : bool) : Hooks :=
  mkHooks b (mode h) (showSettings h) (customApiKey h).

Definition setShowSettings (h : Hooks) (b : bool) : Hooks :=
  mkHooks (apiKeyReady h) (mode h) b (customApiKey h).

Definition setCustomApiKey (h : Hooks) (k : string) : Hooks :=
  mkHooks (apiKeyReady h) (mode h) (showSettings h) k.

(** [initKey], run on mount and on every focus.  A rejection of
    [checkApiKey] is not caught: the hooks stay as they are. *)
Definition initKey (aistudio : option AiStudio) (ls : Storage) (h : Hooks) : result Hooks :=
  (let* hasInjectedKey := checkApiKey aistudio in
   let storedKey := getItem ls "gemini_api_key" in
   if truthy storedKey
   then Ok (setApiKeyReady (setCustomApiKey h (to_String storedKey)) true)
   else if hasInjectedKey
   then Ok (setApiKeyReady h true)
   else Ok (setApiKeyReady h false))%result.

Definition handleSelectKey (aistudio : option AiStudio) (h : Hooks) : result Hooks :=
  (let* _ := fst (openApiKeySelection aistudio) in
   (* Optimistic update *)
   Ok (setApiKeyReady h true))%result.

Definition handleSaveCustomKey (ls : Storage) (h : Hooks) : Hooks * Storage :=
  if truthy (Some (trim (customApiKey h)))
  then (setShowSettings (setApiKeyReady h true) false,
        setItem ls "gemini_api_key" (trim (customApiKey h)))
  else (setApiKeyReady h false, removeItem ls "gemini_api_key").

Definition clearKey (ls : Storage) (h : Hooks) : Hooks * Storage :=
  (setApiKeyReady (setCustomApiKey h EmptyString) false,
   removeItem ls "gemini_api_key").

(** The props [App] renders both studios with. *)
Definition veo_props (h : Hooks) : VeoStudio.Props :=
  VeoStudio.mkProps (apiKeyReady h) (Some (customApiKey h)).

Definition audio_props (h : Hooks) : AudioStudio.Props :=
  AudioStudio.mkProps (apiKeyReady h) (Some (customApiKey h)).

End App.

(** ** Vocabulary of the further statements *)

(** A byte value. *)
Definition is_byte (b : Z) : Prop := 0 <= b < 256.

(** The container both speech operations build from the decoded audio
    [bin]: its bytes at 24 kHz. *)
Definition speech_blob (bin : string) : Blob :=
  mkBlob (wav_header (String.length bin) 24000 ++ charCodes bin) "audio/wav".

(** The requests of the two speech operations. *)
Definition tts_request (text : string) (voiceName : option string)
    : GenerateContentParameters :=
  mkGenerateContentParameters "gemini-2.5-flash-preview-tts" [TextPart text]
    None true (Some (match voiceName with Some v => v | None => "Kore" end)).

Definition clone_request (text audioBase64 mimeType : string)
    : GenerateContentParameters :=
  mkGenerateContentParameters "gemini-2.5-flash-native-audio-preview-09-2025"
    [InlineDataPart mimeType audioBase64;
     TextPart ("Please read the following text. Mimic the voice, tone, and speaking style of the speaker in the provided audio clip as closely as possible. Text to read: "
               ++ dquote ++ text ++ dquote)]
    None true None.

(** The blobs a run made object URLs of, and the content requests it
    sent. *)
Definition object_urls (tr : list Event) : list Blob :=
  flat_map (fun e => match e with CreateObjectURL b => [b] | _ => [] end) tr.

Definition content_requests (tr : list Event) : list GenerateContentParameters :=
  flat_map (fun e => match e with GenerateContent _ p => [p] | _ => [] end) tr.

(** The ways a speech operation can fail with [e]. *)
Inductive SpeechFailure (w : World) (apiKey : option string) : Exn -> Prop :=
| SpeechKeyNotFound :
    truthy (effectiveKey w apiKey) = false ->
    SpeechFailure w apiKey (Error API_KEY_NOT_FOUND)
| ContentRequestFailed (e : Exn) :
    truthy (effectiveKey w apiKey) = true ->
    generateContent_response w = Thrown e ->
    SpeechFailure w apiKey e
| NoAudioData (response : GenerateContentResponse) :
    truthy (effectiveKey w apiKey) = true ->
    generateContent_response w = Ok response ->
    truthy (resp_inlineData response) = false ->
    SpeechFailure w apiKey (Error "No audio data generated.")
| DecodeFailed (response : GenerateContentResponse) (e : Exn) :
    truthy (effectiveKey w apiKey) = true ->
    generateContent_response w = Ok response ->
    truthy (resp_inlineData response) = true ->
    atob w (to_String (resp_inlineData response)) = Thrown e ->
    SpeechFailure w apiKey e.

(** A world for speech and prompt runs: the key and the answer to the
    content request.  The decoder is a stand-in that returns its
    argument, and every blob gets the same URL. *)
Definition content_world (key : option string)
    (response : result GenerateContentResponse) : World :=
  mkWorld key (Thrown (Error "not a video request"))
    (fun _ => Thrown (Error "not a video request")) response
    (fun s => Ok s) (fun _ => "blob:audio").

(** The request of [enhancePrompt]. *)
Definition enhance_request (input : string) : GenerateContentParameters :=
  mkGenerateContentParameters "gemini-2.5-flash" [TextPart input]
    (Some ENHANCE_INSTRUCTION) false None.

(** What either speech operation does, from its request on. *)
Definition speech_result (w : World) (apiKey : option string)
    (req : GenerateContentParameters) : outcome string * State :=
  if truthy (effectiveKey w apiKey) then
    let ai := mkGoogleGenAI (to_String (effectiveKey w apiKey)) in
    let requested := mkState [GenerateContent ai req] 0 in
    match generateContent_response w with
    | Thrown e => (Rejected e, requested)
    | Ok response =>
        if truthy (resp_inlineData response) then
          match atob w (to_String (resp_inlineData response)) with
          | Thrown e => (Rejected e, requested)
          | Ok bin =>
              (Resolved (createObjectURL w (speech_blob bin)),
               mkState [GenerateContent ai req; CreateObjectURL (speech_blob bin)] 0)
          end
        else (Rejected (Error "No audio data generated."), requested)
    end
  else (Rejected (Error API_KEY_NOT_FOUND), init).

(** What [generateVeoVideo] makes of the operation its loop returns. *)
Definition after_loop (key : option string) (operation : Operation) : outcome string :=
  match error operation with
  | Some e => Rejected (Error (or_default (error_message e) "Video generation failed"))
  | None =>
      if truthy (videoUri operation)
      then Resolved (to_String (videoUri operation) ++ "&key=" ++ to_String key)
      else Rejected (Error "No video URI returned from the API.")
  end.

(** The total time, in milliseconds, a run has waited. *)
Definition slept (tr : list Event) : Z :=
  fold_right (fun e t => match e with Sleep ms => ms + t | _ => t end) 0 tr.

(** The messages a run has passed to the progress callback. *)
Definition progress_messages (tr : list Event) : list string :=
  flat_map (fun e => match e with Progress msg => [msg] | _ => [] end) tr.

(** The keys of the clients a run has sent video requests with. *)
Definition request_keys (tr : list Event) : list string :=
  flat_map (fun e => match e with
                     | GenerateVideos ai _ | GetVideosOperation ai _ => [client_apiKey ai]
                     | _ => []
                     end) tr.

(** The operations a run has passed to its polls, in order. *)
Definition polled (tr : list Event) : list Operation :=
  flat_map (fun e => match e with GetVideosOperation _ op => [op] | _ => [] end) tr.

(** A provider whose job never finishes, and one whose job is finished
    when the submission returns. *)
Definition world_never_done : World :=
  video_world (Some "K") (Ok (running "job")) (fun _ => Ok (running "job")).

Definition world_done_at_once : World :=
  video_world (Some "K") (Ok (finished "job" "https://video.example/1?alt=media"))
    (fun _ => no_more_responses).

(** A string in which the character [c] does not occur. *)
Fixpoint free_of (c : ascii) (s : string) : bool :=
  match s with
  | EmptyString => true
  | String a s' => negb (Ascii.eqb a c) && free_of c s'
  end.

(** Hooks for the examples: an image picked, a prompt typed, nothing
    generated yet. *)
Definition veo_hooks : VeoStudio.Hooks :=
  VeoStudio.mkHooks (Some "data:image/png;base64,aW1n") "image/png" "a cat" false
    LANDSCAPE (mkVideoGenerationState false EmptyString None None).

Definition audio_hooks : AudioStudio.Hooks :=
  AudioStudio.mkHooks "hello" AudioStudio.PRESET Puck None
    (mkAudioGenerationState false None None).

Definition app_hooks (customApiKey : string) : App.Hooks :=
  App.mkHooks false VIDEO true customApiKey.

Definition empty_storage : Storage := fun _ => None.

(** A string that does not start with white space. *)
Definition starts_clean (s : string) : Prop :=
  match s with
  | EmptyString => True
  | String c _ => is_white_space c = false
  end.

(** * Properties *)

(** ** The WAV writer *)

Section Wav.

Import DataView.

Lemma le_value_le_bytes (n : nat) (v : Z) :
  le_value (le_bytes n v) = v mod 2 ^ (8 * Z.of_nat n).
Proof.
  revert v; induction n as [|n IH]; intros v.
  - cbn. now rewrite Z.mod_1_r.
  - cbn [le_bytes le_value]. rewrite IH.
    change 255 with (Z.ones 8). rewrite Z.land_ones by lia.
    rewrite Z.shiftr_div_pow2 by lia.
    replace (8 * Z.of_nat (S n)) with (8 + 8 * Z.of_nat n) by lia.
    rewrite Z.pow_add_r by lia.
    rewrite Z.rem_mul_r by lia. reflexivity.
Qed.

Lemma length_le_bytes (n : nat) (v : Z) : length (le_bytes n v) = n.
Proof. revert v; induction n; intros; cbn; auto. Qed.

(** The writer never leaves its buffer, and what it builds is the
    closed-form header followed by the payload. *)
Lemma pcmToWav_closed_form (pcm : list Z) (r : Z) :
  pcmToWav pcm r = Ok (mkBlob (wav_header (length pcm) r ++ pcm) "audio/wav").
Proof.
  unfold pcmToWav, wav_header.
  cbn -[Z.shiftr Z.land].
  unfold new_Blob. cbn [concat app]. rewrite app_nil_r.
  reflexivity.
Qed.

(** The fields of the header, read back as little-endian integers.
    The three that depend on the input are stored in four bytes, so
    they hold the value modulo [2 ^ 32]. *)
Lemma wav_header_fields (n : nat) (r : Z) (payload : list Z) :
  let b := (wav_header n r ++ payload)%list in
  getUint 4 b 4 = (36 + Z.of_nat n) mod 2 ^ 32 /\
  getUint 4 b 16 = 16 /\
  getUint 2 b 20 = 1 /\
  getUint 2 b 22 = 1 /\
  getUint 4 b 24 = r mod 2 ^ 32 /\
  getUint 4 b 28 = (r * 2) mod 2 ^ 32 /\
  getUint 2 b 32 = 2 /\
  getUint 2 b 34 = 16 /\
  getUint 4 b 40 = Z.of_nat n mod 2 ^ 32.
Proof.
  unfold getUint, wav_header.
  cbn -[Z.land Z.shiftr le_value Z.mul Z.add Z.of_nat Z.modulo Z.pow].
  repeat split;
    first [ exact (le_value_le_bytes 4 _) | vm_compute; reflexivity ].
Qed.

Lemma length_wav_header (n : nat) (r : Z) : length (wav_header n r) = 44%nat.
Proof. reflexivity. Qed.

Example pcmToWav_example :
  pcmToWav [0; 1] 24000 =
  Ok (mkBlob [82; 73; 70; 70; 38; 0; 0; 0; 87; 65; 86; 69;
              102; 109; 116; 32; 16; 0; 0; 0; 1; 0; 1; 0;
              192; 93; 0; 0; 128; 187; 0; 0; 2; 0; 16; 0;
              100; 97; 116; 97; 2; 0; 0; 0; 0; 1] "audio/wav").
Proof. vm_compute. reflexivity. Qed.

(** C4, as stated, fails: the byte rate is stored in four bytes, so at
    the sample rate [2 ^ 31] (and an empty payload) bytes 28-31 hold [0],
    not [2 ^ 31 * 2]. *)
Lemma pcmToWav_byte_rate_wraps :
  exists wav,
    pcmToWav [] (2 ^ 31) = Ok wav /\
    getUint 4 (blob_bytes wav) 28 = 0 /\
    getUint 4 (blob_bytes wav) 28 <> 2 ^ 31 * 2.
Proof.
  eexists. split; [vm_compute; reflexivity|].
  split; [vm_compute; reflexivity|].
  vm_compute. discriminate.
Qed.

(** C4 (amended): whenever [36 + len(pcm)] and [r * 2] fit the four-byte
    fields that hold them, [pcmToWav pcm r] returns [44 + len(pcm)] bytes
    whose header has RIFF chunk size (bytes 4-7) [36 + len(pcm)], fmt
    sub-chunk size (bytes 16-19) 16, audio format tag (bytes 20-21) 1,
    channel count (bytes 22-23) 1, byte rate (bytes 28-31) [r * 2], block
    align (bytes 32-33) 2, bits per sample (bytes 34-35) 16 and data chunk
    size (bytes 40-43) [len(pcm)], all little-endian. *)
Theorem pcmToWav_header_fields (pcm : list Z) (r : Z) :
  36 + Z.of_nat (length pcm) < 2 ^ 32 ->
  0 <= r * 2 < 2 ^ 32 ->
  exists wav,
    pcmToWav pcm r = Ok wav /\
    length (blob_bytes wav) = (44 + length pcm)%nat /\
    getUint 4 (blob_bytes wav) 4 = 36 + Z.of_nat (length pcm) /\
    getUint 4 (blob_bytes wav) 16 = 16 /\
    getUint 2 (blob_bytes wav) 20 = 1 /\
    getUint 2 (blob_bytes wav) 22 = 1 /\
    getUint 4 (blob_bytes wav) 28 = r * 2 /\
    getUint 2 (blob_bytes wav) 32 = 2 /\
    getUint 2 (blob_bytes wav) 34 = 16 /\
    getUint 4 (blob_bytes wav) 40 = Z.of_nat (length pcm).
Proof.
  intros Hlen Hrate.
  eexists. split; [apply pcmToWav_closed_form|].
  cbn [blob_bytes].
  destruct (wav_header_fields (length pcm) r pcm)
    as (H4 & H16 & H20 & H22 & _ & H28 & H32 & H34 & H40).
  rewrite H4, H16, H20, H22, H28, H32, H34, H40.
  rewrite !Z.mod_small by lia.
  rewrite length_app, length_wav_header.
  repeat split; reflexivity.
Qed.

(** The example of the specification: [pcmToWav([0x00,0x01], 24000)] is
    46 bytes long and its bytes 40-43 hold 2. *)
Lemma pcmToWav_header_fields_witness :
  exists wav,
    pcmToWav [0; 1] 24000 = Ok wav /\
    length (blob_bytes wav) = 46%nat /\
    getUint 4 (blob_bytes wav) 40 = 2.
Proof.
  destruct (pcmToWav_header_fields [0; 1] 24000) as (wav & H & Hl & Hf);
    [vm_compute; reflexivity | split; vm_compute; congruence |].
  exists wav. split; [exact H|]. split; [exact Hl|]. apply Hf.
Defined.

(** C5: the output of [pcmToWav pcm r] is a 44-byte header followed by
    the bytes of [pcm], unchanged: it is [44 + len(pcm)] bytes long and
    its bytes from offset 44 on are [pcm]. *)
Theorem pcmToWav_layout (pcm : list Z) (r : Z) :
  exists wav header,
    pcmToWav pcm r = Ok wav /\
    length header = 44%nat /\
    blob_bytes wav = (header ++ pcm)%list /\
    length (blob_bytes wav) = (44 + length pcm)%nat /\
    take 44 (blob_bytes wav) = header /\
    drop 44 (blob_bytes wav) = pcm.
Proof.
  exists (mkBlob (wav_header (length pcm) r ++ pcm) "audio/wav"),
    (wav_header (length pcm) r).
  split; [apply pcmToWav_closed_form|].
  cbn [blob_bytes].
  split; [apply length_wav_header|].
  split; [reflexivity|].
  split; [now rewrite length_app, length_wav_header|].
  split.
  - apply take_app_length'. reflexivity.
  - apply drop_app_length'. reflexivity.
Qed.

(** C6: [pcmToWav] is deterministic: two runs on the same bytes and the
    same sample rate both return, and return the same container. *)
Theorem pcmToWav_deterministic (pcm1 pcm2 : list Z) (r1 r2 : Z) :
  pcm1 = pcm2 -> r1 = r2 ->
  exists wav, pcmToWav pcm1 r1 = Ok wav /\ pcmToWav pcm2 r2 = Ok wav.
Proof.
  intros -> ->. eexists. split; apply pcmToWav_closed_form.
Qed.

Lemma pcmToWav_deterministic_witness :
  exists wav, pcmToWav [0; 1] 24000 = Ok wav /\ pcmToWav [0; 1] 24000 = Ok wav.
Proof. apply (pcmToWav_deterministic [0; 1] [0; 1] 24000 24000); reflexivity. Defined.

(** C7: [pcmToWav] is total and has no error path: on every byte array
    and every sample rate it returns a container, and it never throws. *)
Theorem pcmToWav_total (pcm : list Z) (r : Z) :
  (exists wav, pcmToWav pcm r = Ok wav) /\
  (forall e, pcmToWav pcm r <> Thrown e).
Proof.
  rewrite pcmToWav_closed_form. split; [eauto | discriminate].
Qed.

End Wav.

(** ** The video job *)

Section Veo.

Ltac run_monad :=
  unfold run, onProgress, sleep, models_generateVideos,
    operations_getVideosOperation, process_env_API_KEY in *;
  unfold bind, emit, ret, throw, pending in *;
  cbn [trace polls fst snd] in *.

Lemma getAiClient_run (w : World) (apiKey : option string) (st : State) :
  getAiClient apiKey w st =
  (if truthy (effectiveKey w apiKey)
   then Resolved (mkGoogleGenAI (to_String (effectiveKey w apiKey)))
   else Rejected (Error API_KEY_NOT_FOUND), st).
Proof.
  unfold getAiClient, effectiveKey. run_monad.
  destruct (truthy (js_or apiKey (env_API_KEY w))); reflexivity.
Qed.

(** One iteration of the loop, on an operation that is not done. *)
Lemma poll_loop_step (fuel : nat) (ai : GoogleGenAI) (op : Operation)
    (w : World) (st : State) :
  done op = false ->
  poll_loop (S fuel) ai op w st =
  let st1 := mkState (trace st ++ iteration ai op) (S (polls st)) in
  match getVideosOperation_response w (polls st) with
  | Ok op1 => poll_loop fuel ai op1 w st1
  | Thrown e => (Rejected e, st1)
  end.
Proof.
  intros Hd. cbn [poll_loop]. rewrite Hd. cbn [negb]. run_monad.
  unfold iteration. rewrite <- !app_assoc. cbn [app].
  destruct (getVideosOperation_response w (polls st)); reflexivity.
Qed.

Lemma poll_loop_done (fuel : nat) (ai : GoogleGenAI) (op : Operation)
    (w : World) (st : State) :
  done op = true -> poll_loop fuel ai op w st = (Resolved op, st).
Proof. intros Hd. destruct fuel; cbn [poll_loop]; rewrite Hd; reflexivity. Qed.

(** Wherever the loop stops, it has run some iterations, each on the
    operation it held then, and its outcome is decided by the response
    that produced the operation it holds last. *)
Lemma poll_loop_spec (fuel : nat) (ai : GoogleGenAI) :
  forall (op : Operation) (w : World) (st : State) o st',
    poll_loop fuel ai op w st = (o, st') ->
    exists ops : list Operation,
      polls st' = (polls st + length ops)%nat /\
      trace st' = (trace st ++ flat_map (iteration ai) ops)%list /\
      o = loop_outcome (match ops with
                        | [] => Ok op
                        | _ :: _ => getVideosOperation_response w (polls st' - 1)
                        end).
Proof.
  induction fuel as [|fuel IH]; intros op w st o st' Hrun.
  - exists []. cbn [poll_loop] in Hrun. unfold loop_outcome.
    destruct (done op); cbn in Hrun; injection Hrun as <- <-;
      rewrite app_nil_r, Nat.add_0_r; auto.
  - destruct (done op) eqn:Hd.
    + rewrite poll_loop_done in Hrun by assumption. injection Hrun as <- <-.
      exists []. unfold loop_outcome. rewrite Hd, app_nil_r, Nat.add_0_r. auto.
    + rewrite poll_loop_step in Hrun by assumption. cbv zeta in Hrun.
      destruct (getVideosOperation_response w (polls st)) as [op1|e] eqn:Hresp.
      * apply IH in Hrun as (ops & Hp & Ht & Ho). cbn [trace polls] in *.
        exists (op :: ops). cbn [length flat_map].
        split; [lia|]. split; [now rewrite Ht, <- app_assoc|].
        rewrite Ho. destruct ops as [|op2 ops]; [|reflexivity].
        cbn [length] in Hp.
        replace (polls st' - 1)%nat with (polls st) by lia.
        now rewrite Hresp.
      * injection Hrun as <- <-. exists [op]. cbn [trace polls length flat_map].
        rewrite app_nil_r. split; [lia|]. split; [reflexivity|].
        replace (S (polls st) - 1)%nat with (polls st) by lia.
        now rewrite Hresp.
Qed.

Lemma generateVeoVideo_no_key (fuel : nat) (w : World) (apiKey : option string)
    (prompt imageBase64 mimeType : string) (aspectRatio : AspectRatio) :
  truthy (effectiveKey w apiKey) = false ->
  run (generateVeoVideo fuel apiKey prompt imageBase64 mimeType aspectRatio) w =
  (Rejected (Error API_KEY_NOT_FOUND), init).
Proof.
  intros Hkey. unfold run, generateVeoVideo. unfold bind at 1.
  now rewrite getAiClient_run, Hkey.
Qed.

(** A run that has a key: its trace and its outcome, from the number of
    polls it made. *)
Lemma generateVeoVideo_spec (fuel : nat) (w : World) (apiKey : option string)
    (prompt imageBase64 mimeType : string) (aspectRatio : AspectRatio) o st :
  run (generateVeoVideo fuel apiKey prompt imageBase64 mimeType aspectRatio) w = (o, st) ->
  truthy (effectiveKey w apiKey) = true ->
  let ai := mkGoogleGenAI (to_String (effectiveKey w apiKey)) in
  exists ops : list Operation,
    length ops = polls st /\
    trace st =
      ([Progress "Initializing video generation...";
        GenerateVideos ai (submission prompt imageBase64 mimeType aspectRatio)]
       ++ match generateVideos_response w with
          | Thrown _ => []
          | Ok _ => Progress "Rendering video... This may take a moment."
                    :: flat_map (iteration ai) ops
          end)%list /\
    (forall e, generateVideos_response w = Thrown e -> polls st = O) /\
    o = final_outcome (effectiveKey w apiKey) (last_response w (polls st)).
Proof.
  intros Hrun Hkey ai.
  unfold run, generateVeoVideo in Hrun. unfold bind at 1 in Hrun.
  rewrite getAiClient_run, Hkey in Hrun. fold ai in Hrun.
  run_monad. unfold settle at 1 in Hrun.
  fold (submission prompt imageBase64 mimeType aspectRatio) in Hrun.
  destruct (generateVideos_response w) as [op0|e] eqn:Hsub.
  - run_monad.
    destruct (poll_loop fuel ai op0 w _) as [o1 st1] eqn:Hloop.
    apply poll_loop_spec in Hloop as (ops & Hp & Ht & Ho).
    cbn [trace polls init app Nat.add] in Hp, Ht.
    assert (Hheld : o1 = loop_outcome (last_response w (polls st1))).
    { rewrite Ho. destruct ops as [|op1 ops]; cbn [length] in Hp.
      - rewrite Hp. cbn [last_response]. now rewrite Hsub.
      - rewrite Hp. cbn [last_response]. do 2 f_equal. lia. }
    assert (Hfin : forall o', (o', st1) = (o, st) ->
              o' = final_outcome (effectiveKey w apiKey) (last_response w (polls st1)) ->
              exists ops : list Operation,
                length ops = polls st /\
                trace st =
                  ([Progress "Initializing video generation...";
                    GenerateVideos ai (submission prompt imageBase64 mimeType aspectRatio)]
                   ++ Progress "Rendering video... This may take a moment."
                      :: flat_map (iteration ai) ops)%list /\
                (forall e, Ok op0 = Thrown e -> polls st = O) /\
                o = final_outcome (effectiveKey w apiKey) (last_response w (polls st))).
    { intros o' [= <- <-] ->. exists ops. rewrite Ht.
      repeat split; auto; discriminate. }
    unfold final_outcome in Hfin. rewrite <- Hheld in Hfin.
    destruct o1 as [a| |]; [|exact (Hfin _ Hrun eq_refl)..].
    destruct (error a) as [er|]; [exact (Hfin _ Hrun eq_refl)|].
    destruct (truthy (videoUri a)); cbn [negb] in Hrun;
      exact (Hfin _ Hrun eq_refl).
  - run_monad. injection Hrun as <- <-. exists []. cbn [polls last_response].
    rewrite Hsub. auto.
Qed.

(** The loop keeps polling through responses that are not done, and
    stops at the first that is. *)
Lemma poll_loop_reaches (k : nat) :
  forall (fuel : nat) (ai : GoogleGenAI) (op : Operation) (w : World) (st : State)
         (opk : Operation),
    (k < fuel)%nat ->
    done op = false ->
    (forall j, (j < k)%nat ->
       exists opj, getVideosOperation_response w (polls st + j) = Ok opj /\
                   done opj = false) ->
    getVideosOperation_response w (polls st + k) = Ok opk ->
    done opk = true ->
    exists st', poll_loop fuel ai op w st = (Resolved opk, st') /\
                polls st' = (polls st + S k)%nat.
Proof.
  induction k as [|k IH]; intros fuel ai op w st opk Hfuel Hd Hpre Hk Hdk;
    (destruct fuel as [|fuel]; [lia|]);
    rewrite poll_loop_step by assumption; cbv zeta.
  - rewrite Nat.add_0_r in Hk. rewrite Hk, poll_loop_done by assumption.
    eexists. split; [reflexivity|]. cbn [polls]. lia.
  - destruct (Hpre O) as (op1 & H1 & Hd1); [lia|].
    rewrite Nat.add_0_r in H1. rewrite H1.
    edestruct (IH fuel ai op1 w) as (st' & Hrun & Hp);
      [| exact Hd1 | | | exact Hdk | exists st'; split; [exact Hrun|] ].
    + lia.
    + intros j Hj. cbn [polls].
      replace (S (polls st) + j)%nat with (polls st + S j)%nat by lia.
      apply Hpre. lia.
    + cbn [polls]. now replace (S (polls st) + k)%nat with (polls st + S k)%nat by lia.
    + cbn [polls] in Hp. lia.
Qed.

(** A run whose key is there and whose submission is accepted ends as
    the operation the loop returns decides. *)
Lemma generateVeoVideo_after_loop (fuel : nat) (w : World) (apiKey : option string)
    (prompt imageBase64 mimeType : string) (aspectRatio : AspectRatio)
    (op0 op : Operation) (st' : State) :
  truthy (effectiveKey w apiKey) = true ->
  generateVideos_response w = Ok op0 ->
  let ai := mkGoogleGenAI (to_String (effectiveKey w apiKey)) in
  poll_loop fuel ai op0 w
    (mkState [Progress "Initializing video generation...";
              GenerateVideos ai (submission prompt imageBase64 mimeType aspectRatio);
              Progress "Rendering video... This may take a moment."] 0)
  = (Resolved op, st') ->
  done op = true ->
  run (generateVeoVideo fuel apiKey prompt imageBase64 mimeType aspectRatio) w =
  (final_outcome (effectiveKey w apiKey) (Ok op), st').
Proof.
  intros Hkey Hsub ai Hloop Hd.
  unfold run, generateVeoVideo. unfold bind at 1.
  rewrite getAiClient_run, Hkey. fold ai.
  run_monad. unfold settle at 1.
  fold (submission prompt imageBase64 mimeType aspectRatio).
  rewrite Hsub. run_monad. cbn [init trace polls app].
  rewrite Hloop. unfold final_outcome, loop_outcome. rewrite Hd.
  destruct (error op); [reflexivity|].
  destruct (truthy (videoUri op)); reflexivity.
Qed.

Lemma truthy_Some (o : option string) :
  truthy o = true -> exists s, o = Some s /\ s <> EmptyString.
Proof.
  destruct o as [s|]; [|discriminate]. cbn. intros H. exists s. split; [reflexivity|].
  intros ->. discriminate.
Qed.

Lemma Some_truthy (s : string) : s <> EmptyString -> truthy (Some s) = true.
Proof.
  intros H. cbn. destruct (String.eqb_spec s EmptyString); [contradiction|reflexivity].
Qed.

(** C1, as stated, fails: a poll response whose error field is set but
    whose done flag is not does not stop the loop.  Here the first poll
    answers with such a response; the run polls once more and resolves. *)
Lemma poll_error_without_done_keeps_polling :
  exists st,
    getVideosOperation_response world_error_not_done 0
      = Ok (failing "job" false "quota exceeded") /\
    run (generateVeoVideo 5 None "a cat" "aW1n" "image/png" LANDSCAPE)
      world_error_not_done
      = (Resolved "https://video.example/1?alt=media&key=K", st) /\
    polls st = 2%nat.
Proof.
  eexists. split; [reflexivity|]. split; [vm_compute; reflexivity|]. reflexivity.
Qed.

(** C1 (amended): if a poll response has its done flag and its error
    field set, and the run gets to it (it has a key, the submission and
    the polls before returned operations that were not done, and the
    iteration bound is not reached), then the run ends there: it rejects
    with a new [Error] carrying that error's message (or [Video
    generation failed] when it has none) and has made no poll after that
    one. *)
Theorem poll_done_error_terminates (fuel : nat) (w : World) (apiKey : option string)
    (prompt imageBase64 mimeType : string) (aspectRatio : AspectRatio)
    (op0 : Operation) (k : nat) (opk : Operation) (err : OperationError) :
  truthy (effectiveKey w apiKey) = true ->
  generateVideos_response w = Ok op0 ->
  done op0 = false ->
  (forall j, (j < k)%nat ->
     exists opj, getVideosOperation_response w j = Ok opj /\ done opj = false) ->
  getVideosOperation_response w k = Ok opk ->
  done opk = true ->
  error opk = Some err ->
  (k < fuel)%nat ->
  exists st,
    run (generateVeoVideo fuel apiKey prompt imageBase64 mimeType aspectRatio) w
      = (Rejected (Error (or_default (error_message err) "Video generation failed")), st) /\
    polls st = S k.
Proof.
  intros Hkey Hsub Hd0 Hpre Hk Hdk Herr Hfuel.
  set (ai := mkGoogleGenAI (to_String (effectiveKey w apiKey))).
  destruct (poll_loop_reaches k fuel ai op0 w
              (mkState [Progress "Initializing video generation...";
                        GenerateVideos ai (submission prompt imageBase64 mimeType aspectRatio);
                        Progress "Rendering video... This may take a moment."] 0) opk)
    as (st' & Hloop & Hp); auto.
  exists st'. split; [|exact Hp].
  rewrite (generateVeoVideo_after_loop _ _ _ _ _ _ _ _ _ _ Hkey Hsub Hloop Hdk).
  unfold final_outcome, loop_outcome. now rewrite Hdk, Herr.
Qed.

Lemma poll_done_error_terminates_witness :
  exists st,
    run (generateVeoVideo 5 None "a cat" "aW1n" "image/png" LANDSCAPE) world_done_error
      = (Rejected (Error "quota exceeded"), st) /\
    polls st = 2%nat.
Proof.
  apply (poll_done_error_terminates 5 world_done_error None "a cat" "aW1n" "image/png"
           LANDSCAPE (running "job") 1 (failing "job" true "quota exceeded")
           (mkOperationError (Some "quota exceeded"))); try reflexivity.
  - intros j Hj. exists (running "job"). split; [|reflexivity].
    destruct j as [|j]; [reflexivity | lia].
  - lia.
Defined.

(** C2, as stated, fails in its last part: after the three polls the
    run does not resolve with the result's video URI but with a longer
    string, the URI followed by [&key=] and the key. *)
Lemma three_polls_resolve_with_keyed_uri :
  exists s st,
    videoUri (finished "job" "https://video.example/1?alt=media")
      = Some "https://video.example/1?alt=media" /\
    run (generateVeoVideo 3 None "a cat" "aW1n" "image/png" LANDSCAPE) world_three_polls
      = (Resolved s, st) /\
    polls st = 3%nat /\
    s = "https://video.example/1?alt=media&key=K" /\
    s <> "https://video.example/1?alt=media".
Proof.
  eexists. eexists. split; [reflexivity|]. split; [vm_compute; reflexivity|].
  split; [reflexivity|]. split; [reflexivity|]. discriminate.
Qed.

(** C2 (amended): for a submission that returns a not-done handle
    followed by the poll responses [not-done, not-done, done(result)],
    [generateVeoVideo] (given a key and a bound of at least three
    iterations) calls the poll operation exactly 3 times and then
    resolves with that result's video URI followed by [&key=] and the
    effective API key. *)
Theorem three_polls_then_result (fuel : nat) (w : World) (apiKey : option string)
    (prompt imageBase64 mimeType : string) (aspectRatio : AspectRatio)
    (handle p1 p2 p3 : Operation) (rest : result Operation) (uri key : string) :
  effectiveKey w apiKey = Some key ->
  key <> EmptyString ->
  generateVideos_response w = Ok handle ->
  done handle = false ->
  getVideosOperation_response w = scripted [Ok p1; Ok p2; Ok p3] rest ->
  done p1 = false ->
  done p2 = false ->
  done p3 = true ->
  error p3 = None ->
  videoUri p3 = Some uri ->
  uri <> EmptyString ->
  (3 <= fuel)%nat ->
  exists st,
    run (generateVeoVideo fuel apiKey prompt imageBase64 mimeType aspectRatio) w
      = (Resolved (uri ++ "&key=" ++ key), st) /\
    polls st = 3%nat.
Proof.
  intros Hkey Hne Hsub Hd0 Hpoll Hd1 Hd2 Hd3 Herr Huri Hune Hfuel.
  assert (Htk : truthy (effectiveKey w apiKey) = true)
    by (rewrite Hkey; now apply Some_truthy).
  set (ai := mkGoogleGenAI (to_String (effectiveKey w apiKey))).
  destruct (poll_loop_reaches 2 fuel ai handle w
              (mkState [Progress "Initializing video generation...";
                        GenerateVideos ai (submission prompt imageBase64 mimeType aspectRatio);
                        Progress "Rendering video... This may take a moment."] 0) p3)
    as (st' & Hloop & Hp); auto.
  - intros j Hj. rewrite Hpoll. cbn [polls Nat.add].
    destruct j as [|[|j]]; [exists p1 | exists p2 | lia]; auto.
  - now rewrite Hpoll.
  - exists st'. split; [|exact Hp].
    rewrite (generateVeoVideo_after_loop _ _ _ _ _ _ _ _ _ _ Htk Hsub Hloop Hd3).
    unfold final_outcome, loop_outcome.
    rewrite Hd3, Herr, Huri, (Some_truthy _ Hune), Hkey. reflexivity.
Qed.

Lemma three_polls_then_result_witness :
  exists st,
    run (generateVeoVideo 3 None "a cat" "aW1n" "image/png" LANDSCAPE) world_three_polls
      = (Resolved "https://video.example/1?alt=media&key=K", st) /\
    polls st = 3%nat.
Proof.
  apply (three_polls_then_result 3 world_three_polls None "a cat" "aW1n" "image/png"
           LANDSCAPE (running "job") (running "job") (running "job")
           (finished "job" "https://video.example/1?alt=media")
           no_more_responses "https://video.example/1?alt=media" "K");
    try reflexivity; try discriminate; lia.
Defined.

(** C3, as stated, fails: no progress event follows the loop.  In this
    successful run the last event is the third poll, and every
    [Still rendering...] comes after a wait, not before it. *)
Lemma no_progress_event_after_completion :
  let ai := mkGoogleGenAI "K" in
  let params := submission "a cat" "aW1n" "image/png" LANDSCAPE in
  exists st,
    run (generateVeoVideo 3 None "a cat" "aW1n" "image/png" LANDSCAPE) world_three_polls
      = (Resolved "https://video.example/1?alt=media&key=K", st) /\
    trace st =
      [Progress "Initializing video generation...";
       GenerateVideos ai params;
       Progress "Rendering video... This may take a moment.";
       Sleep 5000; Progress "Still rendering..."; GetVideosOperation ai (running "job");
       Sleep 5000; Progress "Still rendering..."; GetVideosOperation ai (running "job");
       Sleep 5000; Progress "Still rendering..."; GetVideosOperation ai (running "job")] /\
    last (trace st) = Some (GetVideosOperation ai (running "job")).
Proof.
  eexists. split; [vm_compute; reflexivity|]. split; reflexivity.
Qed.

(** C3 (amended): in every run of [generateVeoVideo] that has a key, a
    progress callback is emitted before the submission and, when the
    submission is accepted, once more before the first wait; then each
    5 second wait is followed by one [Still rendering...] event and the
    poll.  These are all the events of the run: none follows the loop.
    A run without a key emits nothing. *)
Theorem progress_events (fuel : nat) (w : World) (apiKey : option string)
    (prompt imageBase64 mimeType : string) (aspectRatio : AspectRatio) o st :
  run (generateVeoVideo fuel apiKey prompt imageBase64 mimeType aspectRatio) w = (o, st) ->
  let ai := mkGoogleGenAI (to_String (effectiveKey w apiKey)) in
  let submitted :=
    [Progress "Initializing video generation...";
     GenerateVideos ai (submission prompt imageBase64 mimeType aspectRatio)] in
  (truthy (effectiveKey w apiKey) = false /\ trace st = [])
  \/ (truthy (effectiveKey w apiKey) = true /\
      (exists e, generateVideos_response w = Thrown e) /\
      trace st = submitted)
  \/ (truthy (effectiveKey w apiKey) = true /\
      (exists op0, generateVideos_response w = Ok op0) /\
      exists ops : list Operation,
        length ops = polls st /\
        trace st =
          (submitted
           ++ Progress "Rendering video... This may take a moment."
              :: flat_map (fun operation =>
                             [Sleep 5000; Progress "Still rendering...";
                              GetVideosOperation ai operation]) ops)%list).
Proof.
  intros Hrun ai submitted.
  destruct (truthy (effectiveKey w apiKey)) eqn:Hkey.
  - destruct (generateVeoVideo_spec _ _ _ _ _ _ _ _ _ Hrun Hkey) as (ops & Hl & Ht & _ & _).
    fold ai in Ht. right.
    destruct (generateVideos_response w) as [op0|e].
    + right. split; [reflexivity|]. split; [eauto|]. exists ops. auto.
    + left. split; [reflexivity|]. split; [eauto|]. exact Ht.
  - left. rewrite generateVeoVideo_no_key in Hrun by assumption.
    injection Hrun as <- <-. auto.
Qed.

Lemma progress_events_witness :
  exists o st,
    run (generateVeoVideo 3 None "a cat" "aW1n" "image/png" LANDSCAPE) world_three_polls
      = (o, st) /\
    exists ops : list Operation,
      length ops = 3%nat /\
      trace st =
        ([Progress "Initializing video generation...";
          GenerateVideos (mkGoogleGenAI "K")
            (submission "a cat" "aW1n" "image/png" LANDSCAPE);
          Progress "Rendering video... This may take a moment."]
         ++ flat_map (fun operation =>
                        [Sleep 5000; Progress "Still rendering...";
                         GetVideosOperation (mkGoogleGenAI "K") operation]) ops)%list.
Proof.
  eexists. eexists. split; [vm_compute; reflexivity|].
  destruct (progress_events 3 world_three_polls None "a cat" "aW1n" "image/png" LANDSCAPE
              _ _ eq_refl) as [[H _]|[(_ & H & _)|(_ & _ & ops & Hl & Ht)]];
    [vm_compute in H; discriminate H | |].
  - destruct H as (e & He). vm_compute in He. discriminate He.
  - exists ops. split; [exact Hl | exact Ht].
Defined.

Lemma iterations_polls (ai : GoogleGenAI) (ops : list Operation) :
  length (List.filter is_poll (flat_map (iteration ai) ops)) = length ops.
Proof. induction ops as [|op ops IH]; cbn; [reflexivity | now rewrite IH]. Qed.

Lemma iterations_submissions (ai : GoogleGenAI) (ops : list Operation) :
  List.filter is_submission (flat_map (iteration ai) ops) = [].
Proof. induction ops as [|op ops IH]; cbn; [reflexivity | exact IH]. Qed.

(** C8, as stated, fails: a run can fail outside the four cases.  With
    no key anywhere the run rejects with [API Key not found], although
    the provider would have accepted the submission and returned a job
    that is done, has no error field and has a result URI. *)
Lemma missing_key_is_a_fifth_failure :
  run (generateVeoVideo 5 None "a cat" "aW1n" "image/png" LANDSCAPE) world_no_key
    = (Rejected (Error API_KEY_NOT_FOUND), init) /\
  generateVideos_response world_no_key
    = Ok (finished "job" "https://video.example/1?alt=media") /\
  (forall k, getVideosOperation_response world_no_key k
             = Ok (finished "job" "https://video.example/1?alt=media")) /\
  error (finished "job" "https://video.example/1?alt=media") = None /\
  truthy (videoUri (finished "job" "https://video.example/1?alt=media")) = true.
Proof. repeat split. Qed.

Lemma append_empty_r (s : string) : s ++ EmptyString = s.
Proof.
  induction s as [|c s IH]; [reflexivity|].
  change (String c (s ++ EmptyString) = String c s). now rewrite IH.
Qed.

Lemma append_neq (s t : string) : t <> EmptyString -> s ++ t <> s.
Proof.
  intros Ht H. apply Ht. apply (String.app_inj s).
  rewrite H. symmetry. apply append_empty_r.
Qed.

(** C9: a successful call of [generateVeoVideo] returns not the
    provider's video URI itself but that URI followed by [&key=] and the
    effective API key: the explicit key when one is supplied, else the
    environment key. *)
Theorem returned_url_embeds_key (fuel : nat) (w : World) (apiKey : option string)
    (prompt imageBase64 mimeType : string) (aspectRatio : AspectRatio)
    (s : string) (st : State) :
  run (generateVeoVideo fuel apiKey prompt imageBase64 mimeType aspectRatio) w
    = (Resolved s, st) ->
  exists (operation : Operation) (uri key : string),
    last_response w (polls st) = Ok operation /\
    videoUri operation = Some uri /\
    (if truthy apiKey then apiKey = Some key else env_API_KEY w = Some key) /\
    key <> EmptyString /\
    s = uri ++ "&key=" ++ key /\
    s <> uri.
Proof.
  intros Hrun.
  destruct (truthy (effectiveKey w apiKey)) eqn:Hkey.
  - destruct (generateVeoVideo_spec _ _ _ _ _ _ _ _ _ Hrun Hkey) as (_ & _ & _ & _ & Ho).
    unfold final_outcome, loop_outcome in Ho.
    destruct (last_response w (polls st)) as [op|e]; [|discriminate].
    destruct (done op); [|discriminate].
    destruct (error op); [discriminate|].
    destruct (truthy (videoUri op)) eqn:Huri; [|discriminate].
    apply truthy_Some in Huri as (uri & Hu & _).
    destruct (truthy_Some _ Hkey) as (key & Hk & Hne).
    rewrite Hu, Hk in Ho. cbn [to_String] in Ho. injection Ho as ->.
    exists op, uri, key. split; [reflexivity|]. split; [exact Hu|].
    split; [|split; [exact Hne|split; [reflexivity|]]].
    + unfold effectiveKey, js_or in Hk. now destruct (truthy apiKey).
    + apply append_neq. discriminate.
  - rewrite generateVeoVideo_no_key in Hrun by assumption. discriminate.
Qed.

Lemma returned_url_embeds_key_witness :
  exists (operation : Operation) (uri key : string),
    getVideosOperation_response world_three_polls 2 = Ok operation /\
    videoUri operation = Some uri /\
    env_API_KEY world_three_polls = Some key /\
    "https://video.example/1?alt=media&key=K" = uri ++ "&key=" ++ key.
Proof.
  destruct (returned_url_embeds_key 3 world_three_polls None "a cat" "aW1n" "image/png"
              LANDSCAPE "https://video.example/1?alt=media&key=K" _ eq_refl)
    as (op & uri & key & Hop & Hu & Hk & _ & Hs & _).
  exists op, uri, key. auto.
Defined.

End Veo.

(** ** The key check *)

Section Key.

Lemma no_key_anywhere (w : World) (apiKey : option string) :
  truthy apiKey = false -> truthy (env_API_KEY w) = false ->
  truthy (effectiveKey w apiKey) = false.
Proof. intros Ha He. unfold effectiveKey, js_or. now rewrite Ha. Qed.

(** C10: if neither an explicit API key argument nor an environment API
    key is present (each is [undefined] or, what the code treats alike,
    empty), every exported generation operation ([enhancePrompt],
    [generateVeoVideo], [generateTextToSpeech], [generateClonedSpeech])
    throws the [API Key not found] error before any provider request and
    any progress event: the trace of the run is empty. *)
Theorem key_checked_first (w : World) (apiKey : option string) :
  truthy apiKey = false ->
  truthy (env_API_KEY w) = false ->
  (forall input,
     run (enhancePrompt apiKey input) w
       = (Rejected (Error API_KEY_NOT_FOUND), mkState [] 0)) /\
  (forall fuel prompt imageBase64 mimeType aspectRatio,
     run (generateVeoVideo fuel apiKey prompt imageBase64 mimeType aspectRatio) w
       = (Rejected (Error API_KEY_NOT_FOUND), mkState [] 0)) /\
  (forall text voiceName,
     run (generateTextToSpeech apiKey text voiceName) w
       = (Rejected (Error API_KEY_NOT_FOUND), mkState [] 0)) /\
  (forall text audioBase64 mimeType,
     run (generateClonedSpeech apiKey text audioBase64 mimeType) w
       = (Rejected (Error API_KEY_NOT_FOUND), mkState [] 0)).
Proof.
  intros Ha He. pose proof (no_key_anywhere w apiKey Ha He) as Hkey.
  repeat split; intros;
    unfold run, enhancePrompt, generateVeoVideo, generateTextToSpeech,
      generateClonedSpeech;
    unfold bind at 1; now rewrite getAiClient_run, Hkey.
Qed.

Lemma key_checked_first_witness :
  run (enhancePrompt None "a cat") world_no_key
    = (Rejected (Error API_KEY_NOT_FOUND), mkState [] 0) /\
  run (generateVeoVideo 5 None "a cat" "aW1n" "image/png" LANDSCAPE) world_no_key
    = (Rejected (Error API_KEY_NOT_FOUND), mkState [] 0) /\
  run (generateTextToSpeech None "hello" None) world_no_key
    = (Rejected (Error API_KEY_NOT_FOUND), mkState [] 0) /\
  run (generateClonedSpeech None "hello" "UklGRg==" "audio/wav") world_no_key
    = (Rejected (Error API_KEY_NOT_FOUND), mkState [] 0).
Proof.
  destruct (key_checked_first world_no_key None) as (H1 & H2 & H3 & H4);
    [reflexivity | reflexivity |].
  split; [apply H1|]. split; [apply H2|]. split; [apply H3 | apply H4].
Defined.

End Key.

(** ** The WAV writer, further *)

Section WavMore.

Import DataView.

Lemma charCodes_byte (s : string) : Forall is_byte (charCodes s).
Proof.
  unfold charCodes. induction s as [|c s IH]; cbn; constructor; [|exact IH].
  unfold is_byte. pose proof (nat_ascii_bounded c). lia.
Qed.

Lemma land_255_byte (b : Z) : is_byte b -> Z.land b 255 = b.
Proof.
  intros Hb. change 255 with (Z.ones 8). rewrite Z.land_ones by lia.
  apply Z.mod_small. exact Hb.
Qed.

Lemma land_255_is_byte (v : Z) : is_byte (Z.land v 255).
Proof.
  unfold is_byte. change 255 with (Z.ones 8). rewrite Z.land_ones by lia.
  apply Z.mod_pos_bound. lia.
Qed.

Lemma length_charCodes (s : string) : length (charCodes s) = String.length s.
Proof.
  unfold charCodes. rewrite length_map.
  induction s as [|c s IH]; cbn; [reflexivity | now rewrite IH].
Qed.

Lemma writeString_from_spec (codes : list Z) :
  forall (view : list Z) (offset : nat),
    Forall is_byte codes ->
    (offset + length codes <= length view)%nat ->
    writeString_from view offset codes
    = Ok (take offset view ++ codes ++ drop (offset + length codes) view)%list.
Proof.
  induction codes as [|c codes IH]; intros view offset Hb Hfit;
    cbn [writeString_from length] in *.
  - rewrite Nat.add_0_r. cbn [app]. now rewrite take_drop.
  - inversion Hb as [|? ? Hc Hcs]; subst.
    unfold setUint8, setUint.
    destruct (Nat.leb_spec (offset + 1) (length view)); [|lia].
    cbn [result_bind le_bytes store]. rewrite land_255_byte by assumption.
    rewrite IH by (rewrite ?length_insert; auto; lia).
    assert (Hlt : (offset < length view)%nat) by lia.
    rewrite (take_S_r (<[offset:=c]> view) offset c)
      by (rewrite list_lookup_insert_eq; auto).
    rewrite take_insert_ge by lia.
    rewrite drop_insert_lt by lia.
    rewrite <- app_assoc. cbn [app].
    now replace (S offset + length codes)%nat with (offset + S (length codes))%nat by lia.
Qed.



(** X1: [writeString] on a string that fits: the characters' codes replace the
    bytes from [offset] on, and every other byte of the buffer stays as it
    was. *)
Theorem writeString_in_bounds (view : list Z) (offset : nat) (s : string) :
  (offset + String.length s <= length view)%nat ->
  writeString view offset s
  = Ok (take offset view ++ charCodes s
          ++ drop (offset + String.length s) view)%list.
Proof.
  intros Hfit. unfold writeString.
  rewrite writeString_from_spec;
    rewrite ?length_charCodes; auto using charCodes_byte.
Qed.

Lemma writeString_in_bounds_witness :
  writeString [7; 7; 7; 7; 7; 7] 1 "WAVE" = Ok [7; 87; 65; 86; 69; 7].
Proof. apply (writeString_in_bounds [7; 7; 7; 7; 7; 7] 1 "WAVE"). cbn. lia. Defined.



(** X3: whatever the input, the container [pcmToWav] returns is typed
    [audio/wav] and carries the four chunk tags at their places: [RIFF]
    at 0, [WAVE] at 8, [fmt ] at 12 and [data] at 36. *)
Theorem pcmToWav_chunk_tags (pcm : list Z) (r : Z) :
  exists wav,
    pcmToWav pcm r = Ok wav /\
    blob_type wav = "audio/wav" /\
    take 4 (blob_bytes wav) = charCodes "RIFF" /\
    take 4 (drop 8 (blob_bytes wav)) = charCodes "WAVE" /\
    take 4 (drop 12 (blob_bytes wav)) = charCodes "fmt " /\
    take 4 (drop 36 (blob_bytes wav)) = charCodes "data".
Proof.
  eexists. split; [apply pcmToWav_closed_form|]. repeat split.
Qed.

(** X4: for a sample rate [r] with [0 <= r] and [r * 2 < 2 ^ 32], bytes
    24-27 of the header hold [r], the byte rate is the sample rate times
    the block align, and the block align is channels times bits per
    sample over 8. *)
Theorem pcmToWav_rate_fields (pcm : list Z) (r : Z) :
  0 <= r -> r * 2 < 2 ^ 32 ->
  exists wav,
    pcmToWav pcm r = Ok wav /\
    getUint 4 (blob_bytes wav) 24 = r /\
    getUint 4 (blob_bytes wav) 28
    = getUint 4 (blob_bytes wav) 24 * getUint 2 (blob_bytes wav) 32 /\
    getUint 2 (blob_bytes wav) 32 * 8
    = getUint 2 (blob_bytes wav) 22 * getUint 2 (blob_bytes wav) 34.
Proof.
  intros H0 H1.
  eexists. split; [apply pcmToWav_closed_form|]. cbn [blob_bytes].
  destruct (wav_header_fields (length pcm) r pcm)
    as (_ & _ & _ & H22 & H24 & H28 & H32 & H34 & _).
  rewrite H22, H24, H28, H32, H34.
  rewrite !Z.mod_small by lia. repeat split; lia.
Qed.

Lemma pcmToWav_rate_fields_witness :
  exists wav,
    pcmToWav [0; 1] 24000 = Ok wav /\
    getUint 4 (blob_bytes wav) 24 = 24000 /\
    getUint 4 (blob_bytes wav) 28
    = getUint 4 (blob_bytes wav) 24 * getUint 2 (blob_bytes wav) 32 /\
    getUint 2 (blob_bytes wav) 32 * 8
    = getUint 2 (blob_bytes wav) 22 * getUint 2 (blob_bytes wav) 34.
Proof.
  apply (pcmToWav_rate_fields [0; 1] 24000); [lia | vm_compute; reflexivity].
Defined.

(** X5: when [36 + len(pcm)] fits four bytes, the RIFF size field is the
    length of the whole output minus 8 and the data size field is the
    length of what follows the 44-byte header. *)
Theorem pcmToWav_size_fields (pcm : list Z) (r : Z) :
  36 + Z.of_nat (length pcm) < 2 ^ 32 ->
  exists wav,
    pcmToWav pcm r = Ok wav /\
    getUint 4 (blob_bytes wav) 4 = Z.of_nat (length (blob_bytes wav)) - 8 /\
    getUint 4 (blob_bytes wav) 40 = Z.of_nat (length (drop 44 (blob_bytes wav))).
Proof.
  intros Hfit.
  eexists. split; [apply pcmToWav_closed_form|]. cbn [blob_bytes].
  destruct (wav_header_fields (length pcm) r pcm) as (H4 & _ & _ & _ & _ & _ & _ & _ & H40).
  rewrite H4, H40, !Z.mod_small by lia.
  rewrite length_drop, length_app, length_wav_header. split; lia.
Qed.

Lemma pcmToWav_size_fields_witness :
  exists wav,
    pcmToWav [0; 1] 24000 = Ok wav /\
    getUint 4 (blob_bytes wav) 4 = Z.of_nat (length (blob_bytes wav)) - 8 /\
    getUint 4 (blob_bytes wav) 40 = Z.of_nat (length (drop 44 (blob_bytes wav))).
Proof. apply (pcmToWav_size_fields [0; 1] 24000). vm_compute. reflexivity. Defined.

Lemma le_bytes_byte (n : nat) (v : Z) : Forall is_byte (le_bytes n v).
Proof.
  revert v; induction n as [|n IH]; intros v; cbn [le_bytes]; constructor;
    auto using land_255_is_byte.
Qed.

Lemma wav_header_byte (n : nat) (r : Z) : Forall is_byte (wav_header n r).
Proof.
  unfold wav_header.
  repeat (apply Forall_app; split); auto using charCodes_byte, le_bytes_byte.
Qed.

(** X6: [pcmToWav] writes bytes: if every element of the input is in
    [0, 256), so is every element of the output, whatever the sample
    rate. *)
Theorem pcmToWav_bytes (pcm : list Z) (r : Z) :
  Forall is_byte pcm ->
  exists wav, pcmToWav pcm r = Ok wav /\ Forall is_byte (blob_bytes wav).
Proof.
  intros Hpcm. eexists. split; [apply pcmToWav_closed_form|]. cbn [blob_bytes].
  apply Forall_app. split; [apply wav_header_byte | exact Hpcm].
Qed.

Lemma pcmToWav_bytes_witness :
  exists wav, pcmToWav [0; 255] (-1) = Ok wav /\ Forall is_byte (blob_bytes wav).
Proof.
  apply (pcmToWav_bytes [0; 255] (-1)).
  repeat constructor; unfold is_byte; lia.
Defined.

End WavMore.

(** ** Speech and prompt operations *)

Section Speech.

Ltac service_step :=
  unfold run, models_generateContent, URL_createObjectURL, process_env_API_KEY,
    settle in *;
  unfold bind, emit, ret, throw, pending in *;
  cbn [trace polls fst snd] in *.

Lemma map_mod_256 (codes : list Z) :
  Forall is_byte codes -> map (fun c => c mod 256) codes = codes.
Proof.
  induction 1 as [|c codes Hc _ IH]; cbn; [reflexivity|].
  rewrite IH, Z.mod_small; auto.
Qed.

(** X7: when [atob] decodes the string, [decodeAudio] returns one byte per
    character of the decoded string, each in [0, 256), and has no effect
    on the trace. *)
Theorem decodeAudio_bytes (w : World) (base64String bin : string) (st : State) :
  atob w base64String = Ok bin ->
  decodeAudio base64String w st = (Resolved (charCodes bin), st) /\
  length (charCodes bin) = String.length bin /\
  Forall is_byte (charCodes bin).
Proof.
  intros Hatob. unfold decodeAudio. service_step. rewrite Hatob.
  rewrite map_mod_256 by apply charCodes_byte.
  auto using length_charCodes, charCodes_byte.
Qed.

Lemma decodeAudio_bytes_witness :
  decodeAudio "AAEC" (content_world None (Thrown (Error "unused"))) init
  = (Resolved [65; 65; 69; 67], init).
Proof.
  apply (decodeAudio_bytes (content_world None (Thrown (Error "unused"))) "AAEC" "AAEC" init).
  reflexivity.
Defined.

Lemma decodeAudio_throws (w : World) (base64String : string) (e : Exn) (st : State) :
  atob w base64String = Thrown e ->
  decodeAudio base64String w st = (Rejected e, st).
Proof.
  intros Hatob. unfold decodeAudio. service_step. now rewrite Hatob.
Qed.

Lemma generateTextToSpeech_run (w : World) (apiKey : option string) (text : string)
    (voiceName : option string) :
  run (generateTextToSpeech apiKey text voiceName) w
  = speech_result w apiKey (tts_request text voiceName).
Proof.
  unfold run, generateTextToSpeech, speech_result. unfold bind at 1.
  rewrite getAiClient_run.
  destruct (truthy (effectiveKey w apiKey)); [|reflexivity].
  fold (tts_request text voiceName).
  service_step. cbn [init trace polls app].
  destruct (generateContent_response w) as [response|e]; [|reflexivity].
  destruct (truthy (resp_inlineData response)); cbn [negb]; [|reflexivity].
  destruct (atob w (to_String (resp_inlineData response))) as [bin|e] eqn:Hatob.
  - rewrite (proj1 (decodeAudio_bytes _ _ _ _ Hatob)).
    rewrite pcmToWav_closed_form, length_charCodes. reflexivity.
  - now rewrite (decodeAudio_throws _ _ _ _ Hatob).
Qed.

Lemma generateClonedSpeech_run (w : World) (apiKey : option string)
    (text audioBase64 mimeType : string) :
  run (generateClonedSpeech apiKey text audioBase64 mimeType) w
  = speech_result w apiKey (clone_request text audioBase64 mimeType).
Proof.
  unfold run, generateClonedSpeech, speech_result. unfold bind at 1.
  rewrite getAiClient_run.
  destruct (truthy (effectiveKey w apiKey)); [|reflexivity].
  fold (clone_request text audioBase64 mimeType).
  service_step. cbn [init trace polls app].
  destruct (generateContent_response w) as [response|e]; [|reflexivity].
  destruct (truthy (resp_inlineData response)); cbn [negb]; [|reflexivity].
  destruct (atob w (to_String (resp_inlineData response))) as [bin|e] eqn:Hatob.
  - rewrite (proj1 (decodeAudio_bytes _ _ _ _ Hatob)).
    rewrite pcmToWav_closed_form, length_charCodes. reflexivity.
  - now rewrite (decodeAudio_throws _ _ _ _ Hatob).
Qed.

Lemma speech_result_spec (w : World) (apiKey : option string)
    (req : GenerateContentParameters) o st :
  speech_result w apiKey req = (o, st) ->
  o <> Pending /\
  (forall e, o = Rejected e <-> SpeechFailure w apiKey e) /\
  (length (content_requests (trace st)) <= 1)%nat /\
  match o with
  | Resolved _ => length (object_urls (trace st)) = 1%nat
  | _ => object_urls (trace st) = []
  end.
Proof.
  unfold speech_result. intros H.
  destruct (truthy (effectiveKey w apiKey)) eqn:Hkey.
  - destruct (generateContent_response w) as [response|e'] eqn:Hresp.
    + destruct (truthy (resp_inlineData response)) eqn:Hdata.
      * destruct (atob w (to_String (resp_inlineData response))) as [bin|e'] eqn:Hatob;
          injection H as <- <-; cbn; (split; [discriminate|]);
          (split; [|split; [lia|reflexivity]]).
        -- intros e. split; [discriminate|].
           intros HF. destruct HF; congruence.
        -- intros e. split.
           ++ intros [= <-]. eapply DecodeFailed; eauto.
           ++ intros HF. destruct HF; congruence.
      * injection H as <- <-; cbn. split; [discriminate|].
        split; [|split; [lia|reflexivity]].
        intros e. split.
        -- intros [= <-]. eapply NoAudioData; eauto.
        -- intros HF. destruct HF; congruence.
    + injection H as <- <-; cbn. split; [discriminate|].
      split; [|split; [lia|reflexivity]].
      intros e. split.
      * intros [= <-]. now apply ContentRequestFailed.
      * intros HF. destruct HF; congruence.
  - injection H as <- <-; cbn. split; [discriminate|].
    split; [|split; [lia|reflexivity]].
    intros e. split.
    + intros [= <-]. now apply SpeechKeyNotFound.
    + intros HF. destruct HF; congruence.
Qed.

(** X8: [generateTextToSpeech] and [generateClonedSpeech] always settle,
    and fail exactly when no key is found, the content request throws,
    the response carries no (non-empty) audio data, or [atob] throws;
    they send at most one request, create one object URL when they
    succeed and none when they fail. *)
Theorem speech_failures (w : World) (apiKey : option string)
    (text : string) (voiceName : option string) (audioBase64 mimeType : string) o st :
  run (generateTextToSpeech apiKey text voiceName) w = (o, st)
  \/ run (generateClonedSpeech apiKey text audioBase64 mimeType) w = (o, st) ->
  o <> Pending /\
  (forall e, o = Rejected e <-> SpeechFailure w apiKey e) /\
  (length (content_requests (trace st)) <= 1)%nat /\
  match o with
  | Resolved _ => length (object_urls (trace st)) = 1%nat
  | _ => object_urls (trace st) = []
  end.
Proof.
  intros [H|H];
    [rewrite generateTextToSpeech_run in H | rewrite generateClonedSpeech_run in H];
    exact (speech_result_spec _ _ _ _ _ H).
Qed.

Lemma speech_failures_witness :
  SpeechFailure (content_world (Some "K") (Ok (mkGenerateContentResponse (Some "hi") None)))
    None (Error "No audio data generated.").
Proof.
  assert (H : run (generateTextToSpeech None "hello" None)
                (content_world (Some "K") (Ok (mkGenerateContentResponse (Some "hi") None)))
              = (Rejected (Error "No audio data generated."),
                 mkState [GenerateContent (mkGoogleGenAI "K") (tts_request "hello" None)] 0))
    by (vm_compute; reflexivity).
  apply (speech_failures _ None "hello" None EmptyString EmptyString _ _ (or_introl H)). reflexivity.
Defined.

(** X9: when the response carries audio data that [atob] decodes, both
    speech operations send their one request and resolve with the object
    URL of a container typed [audio/wav]: 44 header bytes declaring
    24000 Hz and the payload length, then the decoded bytes. *)
Theorem speech_success (w : World) (apiKey : option string)
    (text : string) (voiceName : option string) (audioBase64 mimeType : string)
    (response : GenerateContentResponse) (data bin : string) :
  truthy (effectiveKey w apiKey) = true ->
  generateContent_response w = Ok response ->
  resp_inlineData response = Some data ->
  data <> EmptyString ->
  atob w data = Ok bin ->
  let ai := mkGoogleGenAI (to_String (effectiveKey w apiKey)) in
  exists wav,
    run (generateTextToSpeech apiKey text voiceName) w
    = (Resolved (createObjectURL w wav),
       mkState [GenerateContent ai (tts_request text voiceName); CreateObjectURL wav] 0) /\
    run (generateClonedSpeech apiKey text audioBase64 mimeType) w
    = (Resolved (createObjectURL w wav),
       mkState [GenerateContent ai (clone_request text audioBase64 mimeType);
                CreateObjectURL wav] 0) /\
    blob_type wav = "audio/wav" /\
    length (blob_bytes wav) = (44 + String.length bin)%nat /\
    drop 44 (blob_bytes wav) = charCodes bin /\
    DataView.getUint 4 (blob_bytes wav) 24 = 24000 /\
    DataView.getUint 4 (blob_bytes wav) 40 = Z.of_nat (String.length bin) mod 2 ^ 32.
Proof.
  intros Hkey Hresp Hdata Hne Hatob ai.
  exists (speech_blob bin).
  rewrite generateTextToSpeech_run, generateClonedSpeech_run.
  unfold speech_result.
  rewrite Hkey, Hresp, Hdata, (Some_truthy _ Hne). cbn [to_String]. rewrite Hatob.
  split; [reflexivity|]. split; [reflexivity|]. split; [reflexivity|].
  unfold speech_blob. cbn [blob_bytes].
  destruct (wav_header_fields (String.length bin) 24000 (charCodes bin))
    as (_ & _ & _ & _ & H24 & _ & _ & _ & H40).
  split; [now rewrite length_app, length_wav_header, length_charCodes|].
  split; [apply drop_app_length'; reflexivity|].
  split; [exact H24 | exact H40].
Qed.

Lemma speech_success_witness :
  exists wav,
    run (generateTextToSpeech None "hello" None)
      (content_world (Some "K") (Ok (mkGenerateContentResponse None (Some "abcd"))))
    = (Resolved "blob:audio",
       mkState [GenerateContent (mkGoogleGenAI "K") (tts_request "hello" None);
                CreateObjectURL wav] 0) /\
    length (blob_bytes wav) = 48%nat.
Proof.
  destruct (speech_success
              (content_world (Some "K") (Ok (mkGenerateContentResponse None (Some "abcd"))))
              None "hello" None EmptyString EmptyString
              (mkGenerateContentResponse None (Some "abcd")) "abcd" "abcd")
    as (wav & H1 & _ & _ & Hl & _); try reflexivity; [discriminate|].
  exists wav. split; [exact H1 | exact Hl].
Defined.

Lemma enhancePrompt_run (w : World) (apiKey : option string) (input : string) :
  run (enhancePrompt apiKey input) w
  = if truthy (effectiveKey w apiKey) then
      let requested :=
        mkState [GenerateContent (mkGoogleGenAI (to_String (effectiveKey w apiKey)))
                   (enhance_request input)] 0 in
      match generateContent_response w with
      | Ok response => (Resolved (or_default (resp_text response) input), requested)
      | Thrown e => (Rejected e, requested)
      end
    else (Rejected (Error API_KEY_NOT_FOUND), init).
Proof.
  unfold run, enhancePrompt. unfold bind at 1. rewrite getAiClient_run.
  destruct (truthy (effectiveKey w apiKey)); [|reflexivity].
  fold (enhance_request input). service_step. cbn [init trace polls app].
  destruct (generateContent_response w); reflexivity.
Qed.

(** X10: when [enhancePrompt] resolves, it has sent exactly one request, and
    its result is the response's text if that is non-empty and the input
    otherwise; so a non-empty input never becomes an empty prompt. *)
Theorem enhancePrompt_result (w : World) (apiKey : option string) (input s : string)
    (st : State) :
  run (enhancePrompt apiKey input) w = (Resolved s, st) ->
  exists response,
    generateContent_response w = Ok response /\
    (if truthy (resp_text response) then resp_text response = Some s else s = input) /\
    (input <> EmptyString -> s <> EmptyString) /\
    content_requests (trace st) = [enhance_request input] /\
    length (trace st) = 1%nat.
Proof.
  rewrite enhancePrompt_run.
  destruct (truthy (effectiveKey w apiKey)); [|discriminate].
  destruct (generateContent_response w) as [response|e]; [|discriminate].
  intros [= <- <-]. exists response. split; [reflexivity|].
  unfold or_default. destruct (truthy (resp_text response)) eqn:Ht.
  - apply truthy_Some in Ht as (t & -> & Hne). cbn [to_String]. auto.
  - auto.
Qed.

Lemma enhancePrompt_result_witness :
  exists response,
    generateContent_response
      (content_world (Some "K") (Ok (mkGenerateContentResponse (Some EmptyString) None)))
    = Ok response /\
    "a cat" <> EmptyString.
Proof.
  assert (H : run (enhancePrompt None "a cat")
                (content_world (Some "K") (Ok (mkGenerateContentResponse (Some EmptyString) None)))
              = (Resolved "a cat",
                 mkState [GenerateContent (mkGoogleGenAI "K") (enhance_request "a cat")] 0))
    by (vm_compute; reflexivity).
  destruct (enhancePrompt_result _ _ _ _ _ H) as (response & Hr & _ & Hne & _).
  exists response. split; [exact Hr|]. apply Hne. discriminate.
Defined.

(** X11: [enhancePrompt] always settles, and fails exactly when no key
    is found or the content request throws, with what was thrown. *)
Theorem enhancePrompt_failures (w : World) (apiKey : option string) (input : string) o st :
  run (enhancePrompt apiKey input) w = (o, st) ->
  o <> Pending /\
  (forall e, o = Rejected e <->
     (truthy (effectiveKey w apiKey) = false /\ e = Error API_KEY_NOT_FOUND)
     \/ (truthy (effectiveKey w apiKey) = true /\ generateContent_response w = Thrown e)).
Proof.
  rewrite enhancePrompt_run.
  destruct (truthy (effectiveKey w apiKey)).
  - destruct (generateContent_response w) as [response|e']; intros [= <- <-];
      (split; [discriminate|]); intros e; split.
    + discriminate.
    + intros [[? _]|[_ ?]]; discriminate.
    + intros [= <-]. now right.
    + intros [[? _]|[_ [= <-]]]; [discriminate | reflexivity].
  - intros [= <- <-]. split; [discriminate|]. intros e. split.
    + intros [= <-]. now left.
    + intros [[_ ->]|[? _]]; [reflexivity | discriminate].
Qed.

Lemma enhancePrompt_failures_witness :
  truthy (effectiveKey (content_world (Some "K") (Thrown (Error "503"))) None) = true /\
  generateContent_response (content_world (Some "K") (Thrown (Error "503")))
  = Thrown (Error "503").
Proof.
  assert (H : run (enhancePrompt None "a cat") (content_world (Some "K") (Thrown (Error "503")))
              = (Rejected (Error "503"),
                 mkState [GenerateContent (mkGoogleGenAI "K") (enhance_request "a cat")] 0))
    by (vm_compute; reflexivity).
  destruct (enhancePrompt_failures _ _ _ _ _ H) as (_ & Hiff).
  destruct (proj1 (Hiff (Error "503")) eq_refl) as [[Hk _]|[Hk Hr]];
    [vm_compute in Hk; discriminate Hk | split; assumption].
Defined.

End Speech.

(** ** The video job, further *)

Section Loop.

Ltac service_step :=
  unfold run, onProgress, sleep, models_generateVideos,
    operations_getVideosOperation, process_env_API_KEY, settle in *;
  unfold bind, emit, ret, throw, pending in *;
  cbn [trace polls fst snd] in *.

Lemma generateVeoVideo_run (fuel : nat) (w : World) (apiKey : option string)
    (prompt imageBase64 mimeType : string) (aspectRatio : AspectRatio) :
  run (generateVeoVideo fuel apiKey prompt imageBase64 mimeType aspectRatio) w
  = if truthy (effectiveKey w apiKey) then
      let ai := mkGoogleGenAI (to_String (effectiveKey w apiKey)) in
      let submitted :=
        [Progress "Initializing video generation...";
         GenerateVideos ai (submission prompt imageBase64 mimeType aspectRatio)] in
      match generateVideos_response w with
      | Thrown e => (Rejected e, mkState submitted 0)
      | Ok op0 =>
          match poll_loop fuel ai op0 w
                  (mkState (submitted ++ [Progress "Rendering video... This may take a moment."]) 0)
          with
          | (Resolved op, st) => (after_loop (effectiveKey w apiKey) op, st)
          | (Rejected e, st) => (Rejected e, st)
          | (Pending, st) => (Pending, st)
          end
      end
    else (Rejected (Error API_KEY_NOT_FOUND), init).
Proof.
  unfold run, generateVeoVideo. unfold bind at 1. rewrite getAiClient_run.
  destruct (truthy (effectiveKey w apiKey)); [|reflexivity].
  fold (submission prompt imageBase64 mimeType aspectRatio).
  service_step. cbn [init trace polls app].
  destruct (generateVideos_response w) as [op0|e]; [|reflexivity].
  destruct (poll_loop fuel _ op0 w _) as [[op|e|] st]; try reflexivity.
  unfold after_loop, effectiveKey.
  destruct (error op); [reflexivity|].
  destruct (truthy (videoUri op)); reflexivity.
Qed.

Lemma poll_loop_more_fuel (fuel : nat) :
  forall (fuel' : nat) (ai : GoogleGenAI) (op : Operation) (w : World) (st : State) o st',
    poll_loop fuel ai op w st = (o, st') ->
    o <> Pending ->
    (fuel <= fuel')%nat ->
    poll_loop fuel' ai op w st = (o, st').
Proof.
  induction fuel as [|fuel IH]; intros fuel' ai op w st o st' Hrun Hset Hle.
  - destruct (done op) eqn:Hd.
    + rewrite poll_loop_done in * by assumption. exact Hrun.
    + cbn [poll_loop] in Hrun. rewrite Hd in Hrun. cbn [negb] in Hrun.
      unfold pending in Hrun. injection Hrun as <- _. congruence.
  - destruct (done op) eqn:Hd.
    + rewrite poll_loop_done in * by assumption. exact Hrun.
    + destruct fuel' as [|fuel']; [lia|].
      rewrite poll_loop_step in * by assumption. cbv zeta in *.
      destruct (getVideosOperation_response w (polls st)); [|exact Hrun].
      apply IH; auto. lia.
Qed.

Lemma poll_loop_pending (fuel : nat) :
  forall (ai : GoogleGenAI) (op : Operation) (w : World) (st st' : State),
    poll_loop fuel ai op w st = (Pending, st') ->
    polls st' = (polls st + fuel)%nat.
Proof.
  induction fuel as [|fuel IH]; intros ai op w st st' Hrun.
  - cbn [poll_loop] in Hrun. unfold pending, ret in Hrun.
    destruct (done op); cbn [negb] in Hrun; [discriminate|].
    injection Hrun as <-. lia.
  - destruct (done op) eqn:Hd.
    + rewrite poll_loop_done in Hrun by assumption. discriminate.
    + rewrite poll_loop_step in Hrun by assumption. cbv zeta in Hrun.
      destruct (getVideosOperation_response w (polls st)); [|discriminate].
      apply IH in Hrun. cbn [polls] in Hrun. lia.
Qed.

Lemma poll_loop_never_done (fuel : nat) :
  forall (ai : GoogleGenAI) (op : Operation) (w : World) (st : State),
    done op = false ->
    (forall k, exists opk, getVideosOperation_response w k = Ok opk /\ done opk = false) ->
    exists st', poll_loop fuel ai op w st = (Pending, st') /\
                polls st' = (polls st + fuel)%nat.
Proof.
  induction fuel as [|fuel IH]; intros ai op w st Hd Hall.
  - cbn [poll_loop]. rewrite Hd. eexists. split; [reflexivity|]. lia.
  - rewrite poll_loop_step by assumption. cbv zeta.
    destruct (Hall (polls st)) as (op1 & -> & Hd1).
    edestruct (IH ai op1 w) as (st' & Hrun & Hp); [exact Hd1 | exact Hall |].
    exists st'. split; [exact Hrun|]. cbn [polls] in Hp. lia.
Qed.

(** The operations the loop passes to its polls: the one it entered
    with, then the response to each poll but the last; none of them was
    done. *)
Lemma poll_loop_polled (fuel : nat) (ai : GoogleGenAI) :
  forall (op : Operation) (w : World) (st : State) o st',
    poll_loop fuel ai op w st = (o, st') ->
    exists ops : list Operation,
      polls st' = (polls st + length ops)%nat /\
      trace st' = (trace st ++ flat_map (iteration ai) ops)%list /\
      Forall (fun operation => done operation = false) ops /\
      (forall operation, ops !! O = Some operation -> operation = op) /\
      (forall i operation, ops !! (S i) = Some operation ->
         getVideosOperation_response w (polls st + i) = Ok operation).
Proof.
  induction fuel as [|fuel IH]; intros op w st o st' Hrun.
  - exists []. cbn [poll_loop] in Hrun. unfold pending, ret in Hrun.
    destruct (done op); cbn [negb] in Hrun; injection Hrun as <- <-;
      rewrite app_nil_r, Nat.add_0_r; repeat split; auto; intros; discriminate.
  - destruct (done op) eqn:Hd.
    + rewrite poll_loop_done in Hrun by assumption. injection Hrun as <- <-.
      exists []. rewrite app_nil_r, Nat.add_0_r.
      repeat split; auto; intros; discriminate.
    + rewrite poll_loop_step in Hrun by assumption. cbv zeta in Hrun.
      destruct (getVideosOperation_response w (polls st)) as [op1|e] eqn:Hresp.
      * apply IH in Hrun as (ops & Hp & Ht & Hnd & H0 & HS). cbn [trace polls] in *.
        exists (op :: ops). cbn [length flat_map].
        split; [lia|]. split; [now rewrite Ht, <- app_assoc|].
        split; [constructor; assumption|].
        split; [intros ? [= <-]; reflexivity|].
        intros [|i] operation Hi; cbn in Hi.
        -- rewrite Nat.add_0_r, Hresp. f_equal. symmetry. now apply H0.
        -- apply HS in Hi. now replace (polls st + S i)%nat with (S (polls st) + i)%nat by lia.
      * injection Hrun as <- <-. exists [op]. cbn [trace polls length flat_map].
        rewrite app_nil_r. split; [lia|]. split; [reflexivity|].
        split; [constructor; auto|].
        split; [intros ? [= <-]; reflexivity|].
        intros i operation Hi. destruct i; discriminate.
Qed.

(** X12: the outcome and the trace of a run of [generateVeoVideo] that
    settles do not depend on the iteration bound: every larger bound
    gives the same run. *)
Theorem settled_run_ignores_bound (fuel fuel' : nat) (w : World) (apiKey : option string)
    (prompt imageBase64 mimeType : string) (aspectRatio : AspectRatio) o st :
  run (generateVeoVideo fuel apiKey prompt imageBase64 mimeType aspectRatio) w = (o, st) ->
  o <> Pending ->
  (fuel <= fuel')%nat ->
  run (generateVeoVideo fuel' apiKey prompt imageBase64 mimeType aspectRatio) w = (o, st).
Proof.
  rewrite !generateVeoVideo_run. intros Hrun Hset Hle.
  destruct (truthy (effectiveKey w apiKey)); [|exact Hrun]. cbv zeta in *.
  destruct (generateVideos_response w) as [op0|e]; [|exact Hrun].
  destruct (poll_loop fuel _ op0 w _) as [o1 st1] eqn:Hloop.
  assert (Hset1 : o1 <> Pending).
  { intros ->. injection Hrun as <- _. congruence. }
  now rewrite (poll_loop_more_fuel _ _ _ _ _ _ _ _ Hloop Hset1 Hle).
Qed.

Lemma settled_run_ignores_bound_witness :
  exists st,
    run (generateVeoVideo 50 None "a cat" "aW1n" "image/png" LANDSCAPE) world_three_polls
    = (Resolved "https://video.example/1?alt=media&key=K", st) /\
    polls st = 3%nat.
Proof.
  assert (H : exists st,
             run (generateVeoVideo 3 None "a cat" "aW1n" "image/png" LANDSCAPE)
               world_three_polls
             = (Resolved "https://video.example/1?alt=media&key=K", st) /\
             polls st = 3%nat)
    by (eexists; split; [vm_compute; reflexivity | reflexivity]).
  destruct H as (st & H & Hp). exists st. split; [|exact Hp].
  apply (settled_run_ignores_bound 3 50 _ _ _ _ _ _ _ _ H); [discriminate | lia].
Defined.

(** X13: the polling loop has no maximum attempt count: against a provider
    whose job is never done, the run is still pending after any number
    of polls. *)
Theorem polling_never_gives_up (fuel : nat) (w : World) (apiKey : option string)
    (prompt imageBase64 mimeType : string) (aspectRatio : AspectRatio)
    (op0 : Operation) :
  truthy (effectiveKey w apiKey) = true ->
  generateVideos_response w = Ok op0 ->
  done op0 = false ->
  (forall k, exists opk, getVideosOperation_response w k = Ok opk /\ done opk = false) ->
  exists st,
    run (generateVeoVideo fuel apiKey prompt imageBase64 mimeType aspectRatio) w
    = (Pending, st) /\
    polls st = fuel.
Proof.
  intros Hkey Hsub Hd Hall. rewrite generateVeoVideo_run, Hkey, Hsub. cbv zeta.
  edestruct (poll_loop_never_done fuel) as (st' & -> & Hp); [exact Hd | exact Hall |].
  exists st'. split; [reflexivity|]. exact Hp.
Qed.

Lemma polling_never_gives_up_witness :
  exists st,
    run (generateVeoVideo 7 None "a cat" "aW1n" "image/png" LANDSCAPE) world_never_done
    = (Pending, st) /\
    polls st = 7%nat.
Proof.
  apply (polling_never_gives_up 7 world_never_done None "a cat" "aW1n" "image/png"
           LANDSCAPE (running "job")); try reflexivity.
  intros k. exists (running "job"). split; reflexivity.
Defined.

Lemma after_loop_settled (key : option string) (op : Operation) :
  after_loop key op <> Pending.
Proof.
  unfold after_loop. destruct (error op); [discriminate|].
  destruct (truthy (videoUri op)); discriminate.
Qed.

(** X14: a run of [generateVeoVideo] stops short of settling only at the
    iteration bound: if it is pending, it has made as many polls as the
    bound allows and the last response was an operation that is not
    done. *)
Theorem pending_means_bound_reached (fuel : nat) (w : World) (apiKey : option string)
    (prompt imageBase64 mimeType : string) (aspectRatio : AspectRatio) (st : State) :
  run (generateVeoVideo fuel apiKey prompt imageBase64 mimeType aspectRatio) w
    = (Pending, st) ->
  polls st = fuel /\
  exists operation, last_response w fuel = Ok operation /\ done operation = false.
Proof.
  intros Hrun.
  assert (Hp : polls st = fuel).
  { rewrite generateVeoVideo_run in Hrun.
    destruct (truthy (effectiveKey w apiKey)); [|discriminate]. cbv zeta in Hrun.
    destruct (generateVideos_response w) as [op0|e]; [|discriminate].
    destruct (poll_loop fuel _ op0 w _) as [[op|e|] st1] eqn:Hloop.
    - injection Hrun as Hrun _. now apply after_loop_settled in Hrun.
    - discriminate.
    - injection Hrun as <-. apply poll_loop_pending in Hloop. exact Hloop. }
  split; [exact Hp|].
  destruct (truthy (effectiveKey w apiKey)) eqn:Hkey.
  - destruct (generateVeoVideo_spec _ _ _ _ _ _ _ _ _ Hrun Hkey) as (_ & _ & _ & _ & Ho).
    rewrite Hp in Ho. unfold final_outcome, loop_outcome in Ho.
    destruct (last_response w fuel) as [op|e]; [|discriminate].
    exists op. split; [reflexivity|].
    destruct (done op); [|reflexivity].
    destruct (error op); [discriminate|].
    destruct (truthy (videoUri op)); discriminate.
  - rewrite generateVeoVideo_no_key in Hrun by assumption. discriminate.
Qed.

Lemma pending_means_bound_reached_witness :
  exists operation,
    last_response world_three_polls 2 = Ok operation /\ done operation = false.
Proof.
  assert (H : exists st,
             run (generateVeoVideo 2 None "a cat" "aW1n" "image/png" LANDSCAPE)
               world_three_polls = (Pending, st))
    by (eexists; vm_compute; reflexivity).
  destruct H as (st & H).
  exact (proj2 (pending_means_bound_reached 2 _ _ _ _ _ _ _ H)).
Defined.

(** X15: when the submission already returns an operation that is done,
    [generateVeoVideo] neither waits nor polls: after its first two
    progress events it goes on to the error and result checks. *)
Theorem done_submission_skips_polling (fuel : nat) (w : World) (apiKey : option string)
    (prompt imageBase64 mimeType : string) (aspectRatio : AspectRatio)
    (op0 : Operation) :
  truthy (effectiveKey w apiKey) = true ->
  generateVideos_response w = Ok op0 ->
  done op0 = true ->
  let ai := mkGoogleGenAI (to_String (effectiveKey w apiKey)) in
  run (generateVeoVideo fuel apiKey prompt imageBase64 mimeType aspectRatio) w
  = (after_loop (effectiveKey w apiKey) op0,
     mkState [Progress "Initializing video generation...";
              GenerateVideos ai (submission prompt imageBase64 mimeType aspectRatio);
              Progress "Rendering video... This may take a moment."] 0).
Proof.
  intros Hkey Hsub Hd ai. rewrite generateVeoVideo_run, Hkey, Hsub. cbv zeta.
  now rewrite poll_loop_done by assumption.
Qed.

Lemma done_submission_skips_polling_witness :
  run (generateVeoVideo 0 None "a cat" "aW1n" "image/png" LANDSCAPE) world_done_at_once
  = (Resolved "https://video.example/1?alt=media&key=K",
     mkState [Progress "Initializing video generation...";
              GenerateVideos (mkGoogleGenAI "K")
                (submission "a cat" "aW1n" "image/png" LANDSCAPE);
              Progress "Rendering video... This may take a moment."] 0).
Proof.
  apply (done_submission_skips_polling 0 world_done_at_once None "a cat" "aW1n"
           "image/png" LANDSCAPE (finished "job" "https://video.example/1?alt=media"));
    reflexivity.
Defined.

Lemma slept_app (l1 l2 : list Event) : slept (l1 ++ l2) = slept l1 + slept l2.
Proof.
  unfold slept. induction l1 as [|e l1 IH]; cbn [app fold_right]; [lia|].
  destruct e; rewrite IH; lia.
Qed.

Lemma slept_iterations (ai : GoogleGenAI) (ops : list Operation) :
  slept (flat_map (iteration ai) ops) = 5000 * Z.of_nat (length ops).
Proof.
  induction ops as [|op ops IH]; [reflexivity|].
  cbn [flat_map]. rewrite slept_app, IH. cbn [length].
  change (slept (iteration ai op)) with 5000. lia.
Qed.

Lemma progress_app (l1 l2 : list Event) :
  progress_messages (l1 ++ l2) = (progress_messages l1 ++ progress_messages l2)%list.
Proof. apply flat_map_app. Qed.

Lemma progress_iterations (ai : GoogleGenAI) (ops : list Operation) :
  progress_messages (flat_map (iteration ai) ops)
  = repeat "Still rendering..." (length ops).
Proof.
  induction ops as [|op ops IH]; [reflexivity|].
  cbn [flat_map]. rewrite progress_app, IH. reflexivity.
Qed.

Lemma poll_loop_bound (fuel : nat) :
  forall (ai : GoogleGenAI) (op : Operation) (w : World) (st : State) o st',
    poll_loop fuel ai op w st = (o, st') -> (polls st' <= polls st + fuel)%nat.
Proof.
  induction fuel as [|fuel IH]; intros ai op w st o st' H.
  - cbn [poll_loop] in H. unfold pending, ret in H.
    destruct (done op); cbn [negb] in H; injection H as _ <-; lia.
  - destruct (done op) eqn:Hd.
    + rewrite poll_loop_done in H by assumption. injection H as _ <-. lia.
    + rewrite poll_loop_step in H by assumption. cbv zeta in H.
      destruct (getVideosOperation_response w (polls st)).
      * apply IH in H. cbn [polls] in H. lia.
      * injection H as _ <-. cbn [polls]. lia.
Qed.

(** X16: a run of [generateVeoVideo] waits 5000 ms per poll and in no
    other place, makes at most as many polls as the bound, and emits one
    [Still rendering...] per poll after at most two opening messages. *)
Theorem five_seconds_per_poll (fuel : nat) (w : World) (apiKey : option string)
    (prompt imageBase64 mimeType : string) (aspectRatio : AspectRatio) o st :
  run (generateVeoVideo fuel apiKey prompt imageBase64 mimeType aspectRatio) w = (o, st) ->
  slept (trace st) = 5000 * Z.of_nat (polls st) /\
  (polls st <= fuel)%nat /\
  exists n,
    progress_messages (trace st)
    = (take n ["Initializing video generation...";
               "Rendering video... This may take a moment."]
       ++ repeat "Still rendering..." (polls st))%list.
Proof.
  intros Hrun.
  assert (Hle : (polls st <= fuel)%nat).
  { rewrite generateVeoVideo_run in Hrun.
    destruct (truthy (effectiveKey w apiKey)); [|injection Hrun as _ <-; cbn; lia].
    cbv zeta in Hrun.
    destruct (generateVideos_response w) as [op0|e]; [|injection Hrun as _ <-; cbn; lia].
    destruct (poll_loop fuel _ op0 w _) as [o1 st1] eqn:Hloop.
    assert (st1 = st) as -> by (destruct o1; congruence).
    apply poll_loop_bound in Hloop. exact Hloop. }
  destruct (truthy (effectiveKey w apiKey)) eqn:Hkey.
  - destruct (generateVeoVideo_spec _ _ _ _ _ _ _ _ _ Hrun Hkey)
      as (ops & Hl & Ht & H0 & _).
    rewrite Ht, slept_app, progress_app.
    destruct (generateVideos_response w) as [op0|e].
    + change (Progress "Rendering video... This may take a moment."
              :: flat_map (iteration (mkGoogleGenAI (to_String (effectiveKey w apiKey)))) ops)
        with ([Progress "Rendering video... This may take a moment."]
              ++ flat_map (iteration (mkGoogleGenAI (to_String (effectiveKey w apiKey)))) ops)%list.
      rewrite slept_app, progress_app, slept_iterations, progress_iterations, Hl.
      split; [cbn; lia|]. split; [exact Hle|]. exists 2%nat. reflexivity.
    + rewrite (H0 e eq_refl). split; [reflexivity|]. split; [lia|].
      exists 1%nat. reflexivity.
  - rewrite generateVeoVideo_no_key in Hrun by assumption. injection Hrun as _ <-.
    split; [reflexivity|]. split; [cbn; lia|]. exists 0%nat. reflexivity.
Qed.

Lemma five_seconds_per_poll_witness :
  exists st,
    run (generateVeoVideo 3 None "a cat" "aW1n" "image/png" LANDSCAPE) world_three_polls
    = (Resolved "https://video.example/1?alt=media&key=K", st) /\
    slept (trace st) = 15000.
Proof.
  assert (H : exists st,
             run (generateVeoVideo 3 None "a cat" "aW1n" "image/png" LANDSCAPE)
               world_three_polls
             = (Resolved "https://video.example/1?alt=media&key=K", st) /\
             polls st = 3%nat)
    by (eexists; split; [vm_compute; reflexivity | reflexivity]).
  destruct H as (st & H & Hp). exists st. split; [exact H|].
  rewrite (proj1 (five_seconds_per_poll _ _ _ _ _ _ _ _ _ H)), Hp. reflexivity.
Defined.

Lemma polled_app (l1 l2 : list Event) : polled (l1 ++ l2) = (polled l1 ++ polled l2)%list.
Proof. apply flat_map_app. Qed.

Lemma polled_iterations (ai : GoogleGenAI) (ops : list Operation) :
  polled (flat_map (iteration ai) ops) = ops.
Proof.
  induction ops as [|op ops IH]; [reflexivity|].
  cbn [flat_map]. rewrite polled_app, IH. reflexivity.
Qed.

(** X17: each poll is passed the operation of the response before it (the
    submission's for the first poll), and that operation was not done:
    the loop polls for as long as, and only while, the job is not done. *)
Theorem polls_pass_previous_response (fuel : nat) (w : World) (apiKey : option string)
    (prompt imageBase64 mimeType : string) (aspectRatio : AspectRatio) o st :
  run (generateVeoVideo fuel apiKey prompt imageBase64 mimeType aspectRatio) w = (o, st) ->
  length (polled (trace st)) = polls st /\
  forall (i : nat) (operation : Operation),
    polled (trace st) !! i = Some operation ->
    last_response w i = Ok operation /\ done operation = false.
Proof.
  rewrite generateVeoVideo_run.
  destruct (truthy (effectiveKey w apiKey));
    [|intros [= _ <-]; split; [reflexivity | intros; discriminate]].
  cbv zeta.
  destruct (generateVideos_response w) as [op0|e] eqn:Hsub;
    [|intros [= _ <-]; split; [reflexivity | intros; discriminate]].
  destruct (poll_loop fuel _ op0 w _) as [o1 st1] eqn:Hloop. intros Hrun.
  assert (st1 = st) as -> by (destruct o1; congruence). clear Hrun.
  apply poll_loop_polled in Hloop as (ops & Hp & Ht & Hnd & H0 & HS).
  cbn [trace polls Nat.add] in *.
  rewrite Ht, polled_app, polled_iterations. cbn [polled flat_map app].
  split; [now rewrite Hp|].
  intros i operation Hi. split.
  - destruct i as [|i]; cbn [last_response].
    + rewrite Hsub. f_equal. symmetry. now apply H0.
    + now apply HS.
  - rewrite Forall_forall in Hnd. apply Hnd.
    eapply list_elem_of_lookup_2. exact Hi.
Qed.

Lemma polls_pass_previous_response_witness :
  last_response world_three_polls 2 = Ok (running "job").
Proof.
  assert (H : exists st,
             run (generateVeoVideo 3 None "a cat" "aW1n" "image/png" LANDSCAPE)
               world_three_polls
             = (Resolved "https://video.example/1?alt=media&key=K", st) /\
             polled (trace st) !! 2%nat = Some (running "job"))
    by (eexists; split; [vm_compute; reflexivity | reflexivity]).
  destruct H as (st & H & Hi).
  exact (proj1 (proj2 (polls_pass_previous_response _ _ _ _ _ _ _ _ _ H) _ _ Hi)).
Defined.

Lemma request_keys_app (l1 l2 : list Event) :
  request_keys (l1 ++ l2) = (request_keys l1 ++ request_keys l2)%list.
Proof. apply flat_map_app. Qed.

Lemma request_keys_iterations (ai : GoogleGenAI) (ops : list Operation) :
  request_keys (flat_map (iteration ai) ops) = repeat (client_apiKey ai) (length ops).
Proof.
  induction ops as [|op ops IH]; [reflexivity|].
  cbn [flat_map]. rewrite request_keys_app, IH. reflexivity.
Qed.

(** X18: in a run of [generateVeoVideo] that resolves, the submission and
    every poll were sent by a client with one and the same non-empty key,
    the key the returned URL ends with. *)
Theorem one_key_throughout (fuel : nat) (w : World) (apiKey : option string)
    (prompt imageBase64 mimeType : string) (aspectRatio : AspectRatio)
    (s : string) (st : State) :
  run (generateVeoVideo fuel apiKey prompt imageBase64 mimeType aspectRatio) w
    = (Resolved s, st) ->
  exists key uri : string,
    key <> EmptyString /\
    request_keys (trace st) = repeat key (S (polls st)) /\
    s = uri ++ "&key=" ++ key.
Proof.
  intros Hrun.
  destruct (truthy (effectiveKey w apiKey)) eqn:Hkey;
    [|rewrite generateVeoVideo_no_key in Hrun by assumption; discriminate].
  destruct (generateVeoVideo_spec _ _ _ _ _ _ _ _ _ Hrun Hkey)
    as (ops & Hl & Ht & H0 & Ho).
  destruct (truthy_Some _ Hkey) as (key & Hk & Hne).
  unfold final_outcome, loop_outcome in Ho.
  destruct (last_response w (polls st)) as [op|e] eqn:Hlast; [|discriminate].
  destruct (done op); [|discriminate].
  destruct (error op); [discriminate|].
  destruct (truthy (videoUri op)); [|discriminate].
  injection Ho as ->. rewrite Hk in *. cbn [to_String] in *.
  exists key, (to_String (videoUri op)). split; [exact Hne|]. split; [|reflexivity].
  rewrite Ht, request_keys_app.
  destruct (generateVideos_response w) as [op0|e] eqn:Hsub.
  - change (Progress "Rendering video... This may take a moment."
            :: flat_map (iteration (mkGoogleGenAI key)) ops)
      with ([Progress "Rendering video... This may take a moment."]
            ++ flat_map (iteration (mkGoogleGenAI key)) ops)%list.
    rewrite request_keys_app, request_keys_iterations, Hl. reflexivity.
  - exfalso. rewrite (H0 e eq_refl) in Hlast. cbn [last_response] in Hlast. congruence.
Qed.

Lemma one_key_throughout_witness :
  exists key uri : string,
    key <> EmptyString /\
    "https://video.example/1?alt=media&key=K" = uri ++ "&key=" ++ key.
Proof.
  assert (H : exists st,
             run (generateVeoVideo 3 None "a cat" "aW1n" "image/png" LANDSCAPE)
               world_three_polls
             = (Resolved "https://video.example/1?alt=media&key=K", st))
    by (eexists; vm_compute; reflexivity).
  destruct H as (st & H).
  destruct (one_key_throughout _ _ _ _ _ _ _ _ _ H) as (key & uri & Hne & _ & Hs).
  exists key, uri. split; assumption.
Defined.

(** Every response a run received before its last was an operation that
    is not done. *)
Lemma generateVeoVideo_earlier_responses (fuel : nat) (w : World) (apiKey : option string)
    (prompt imageBase64 mimeType : string) (aspectRatio : AspectRatio) o st :
  run (generateVeoVideo fuel apiKey prompt imageBase64 mimeType aspectRatio) w = (o, st) ->
  forall j, (j < polls st)%nat ->
    exists operation, last_response w j = Ok operation /\ done operation = false.
Proof.
  rewrite generateVeoVideo_run.
  destruct (truthy (effectiveKey w apiKey)); [|intros [= _ <-] j Hj; cbn in Hj; lia].
  cbv zeta.
  destruct (generateVideos_response w) as [op0|e] eqn:Hsub;
    [|intros [= _ <-] j Hj; cbn in Hj; lia].
  destruct (poll_loop fuel _ op0 w _) as [o1 st1] eqn:Hloop. intros Hrun.
  assert (st1 = st) as -> by (destruct o1; congruence). clear Hrun.
  apply poll_loop_polled in Hloop as (ops & Hp & _ & Hnd & H0 & HS).
  cbn [polls Nat.add] in *. intros j Hj. rewrite Hp in Hj.
  destruct (lookup_lt_is_Some_2 ops j Hj) as [operation Hop].
  exists operation. split.
  - destruct j as [|j]; cbn [last_response].
    + rewrite Hsub. f_equal. symmetry. now apply H0.
    + now apply HS.
  - rewrite Forall_forall in Hnd. apply Hnd. eapply list_elem_of_lookup_2. exact Hop.
Qed.

(** C8 (amended): [generateVeoVideo], with a progress callback that
    returns, fails exactly in five cases: no key is found, the
    submission throws, a poll call throws, the completed job carries an
    error field, or the job is done with no (non-empty) result URI.
    Each failure is terminal with no retry: the run sends at most one
    submission, every response before its last was an operation that
    is not done, so a submission or a poll that throws is the last
    request of the run; and what the submission or a poll throws is
    what the run rejects with. *)
Theorem failure_taxonomy (fuel : nat) (w : World) (apiKey : option string)
    (prompt imageBase64 mimeType : string) (aspectRatio : AspectRatio) o st :
  run (generateVeoVideo fuel apiKey prompt imageBase64 mimeType aspectRatio) w = (o, st) ->
  (forall e, o = Rejected e <-> Failure w apiKey (polls st) e) /\
  (length (List.filter is_submission (trace st)) <= 1)%nat /\
  length (List.filter is_poll (trace st)) = polls st /\
  (forall j, (j < polls st)%nat ->
     exists operation, last_response w j = Ok operation /\ done operation = false) /\
  (forall k e, (k < polls st)%nat ->
     getVideosOperation_response w k = Thrown e ->
     polls st = S k /\ o = Rejected e) /\
  (forall e, truthy (effectiveKey w apiKey) = true ->
     generateVideos_response w = Thrown e ->
     polls st = O /\ o = Rejected e).
Proof.
  intros Hrun.
  pose proof (generateVeoVideo_earlier_responses _ _ _ _ _ _ _ _ _ Hrun) as Hearlier.
  assert (Hiff : forall e, o = Rejected e <-> Failure w apiKey (polls st) e).
  { destruct (truthy (effectiveKey w apiKey)) eqn:Hkey.
    - destruct (generateVeoVideo_spec _ _ _ _ _ _ _ _ _ Hrun Hkey)
        as (ops & Hl & Ht & H0 & Ho).
      intros e. unfold final_outcome, loop_outcome in Ho. split.
      + intros ->.
        destruct (last_response w (polls st)) as [op|e'] eqn:Hlast.
        * destruct (done op) eqn:Hd; [|discriminate].
          destruct (error op) as [err|] eqn:Herr.
          -- injection Ho as ->. eapply JobReportedError; eauto.
          -- destruct (truthy (videoUri op)) eqn:Huri; [discriminate|].
             injection Ho as ->. eapply MissingResult; eauto.
        * injection Ho as ->. destruct (polls st) as [|k] eqn:Hp.
          -- now apply SubmissionFailed.
          -- now apply (PollingFailed _ _ _ k).
      + intros HF. rewrite Ho.
        destruct HF as [Hk _ | e Hk Hn Hs | k e Hk Hn Hs
                       | op err Hk Hlast Hd Herr | op Hk Hlast Hd Herr Huri].
        * congruence.
        * rewrite Hn. cbn [last_response]. now rewrite Hs.
        * rewrite Hn. cbn [last_response]. now rewrite Hs.
        * now rewrite Hlast, Hd, Herr.
        * now rewrite Hlast, Hd, Herr, Huri.
    - rewrite generateVeoVideo_no_key in Hrun by assumption.
      injection Hrun as <- <-. cbn [polls init].
      intros e. split.
      + intros [= <-]. now apply KeyNotFound.
      + intros HF. destruct HF; congruence. }
  split; [exact Hiff|].
  assert (Hcount : (length (List.filter is_submission (trace st)) <= 1)%nat /\
                   length (List.filter is_poll (trace st)) = polls st).
  { destruct (truthy (effectiveKey w apiKey)) eqn:Hkey.
    - destruct (generateVeoVideo_spec _ _ _ _ _ _ _ _ _ Hrun Hkey)
        as (ops & Hl & Ht & H0 & _).
      rewrite Ht. destruct (generateVideos_response w); cbn.
      + rewrite iterations_submissions, iterations_polls. cbn. split; [lia | exact Hl].
      + split; [lia|]. symmetry. eapply H0. reflexivity.
    - rewrite generateVeoVideo_no_key in Hrun by assumption.
      injection Hrun as <- <-. cbn. split; [lia | reflexivity]. }
  split; [exact (proj1 Hcount)|]. split; [exact (proj2 Hcount)|].
  split; [exact Hearlier|]. split.
  - intros k e Hk Hthrown.
    assert (Hp : polls st = S k).
    { destruct (Nat.eq_dec (polls st) (S k)) as [|Hne]; [assumption|].
      destruct (Hearlier (S k)) as (op & Hop & _); [lia|].
      cbn [last_response] in Hop. congruence. }
    split; [exact Hp|]. apply Hiff.
    destruct (truthy (effectiveKey w apiKey)) eqn:Hkey.
    + now apply (PollingFailed _ _ _ k).
    + rewrite generateVeoVideo_no_key in Hrun by assumption.
      injection Hrun as _ <-. discriminate Hp.
  - intros e Hkey Hthrown.
    assert (Hp : polls st = O).
    { destruct (polls st) as [|n] eqn:Hn; [reflexivity|].
      destruct (Hearlier O) as (op & Hop & _); [lia|].
      cbn [last_response] in Hop. congruence. }
    split; [exact Hp|]. apply Hiff. now apply SubmissionFailed.
Qed.

Lemma failure_taxonomy_witness :
  Failure world_done_error None 2 (Error "quota exceeded") /\
  length (List.filter is_poll
            (trace (snd (run (generateVeoVideo 5 None "a cat" "aW1n" "image/png" LANDSCAPE)
                           world_done_error)))) = 2%nat.
Proof.
  destruct (failure_taxonomy 5 world_done_error None "a cat" "aW1n" "image/png" LANDSCAPE
              _ _ eq_refl) as (H & _ & Hp & _).
  split; [apply (H (Error "quota exceeded")); reflexivity | exact Hp].
Defined.

End Loop.

(** ** The components *)

Section BuiltIns.

Lemma trimEnd_idempotent (s : string) : trimEnd (trimEnd s) = trimEnd s.
Proof.
  induction s as [|c s IH]; [reflexivity|].
  cbn [trimEnd]. destruct (trimEnd s) as [|d t] eqn:Ht.
  - destruct (is_white_space c) eqn:Hc; [reflexivity|].
    cbn [trimEnd]. now rewrite Hc.
  - change (trimEnd (String c (String d t)))
      with (match trimEnd (String d t) with
            | EmptyString =>
                if is_white_space c then EmptyString else String c EmptyString
            | String _ _ as u => String c u
            end).
    now rewrite IH.
Qed.

Lemma trimStart_clean (s : string) : starts_clean (trimStart s).
Proof.
  induction s as [|c s IH]; [exact I|].
  cbn [trimStart]. destruct (is_white_space c) eqn:Hc; [exact IH | exact Hc].
Qed.

Lemma trimStart_of_clean (s : string) : starts_clean s -> trimStart s = s.
Proof. destruct s as [|c s]; [reflexivity|]. cbn. now intros ->. Qed.

Lemma trimEnd_clean (s : string) : starts_clean s -> starts_clean (trimEnd s).
Proof.
  destruct s as [|c s]; [exact id|]. cbn [starts_clean trimEnd]. intros Hc.
  destruct (trimEnd s); [rewrite Hc|]; exact Hc.
Qed.

Lemma trim_idempotent (s : string) : trim (trim s) = trim s.
Proof.
  unfold trim.
  rewrite (trimStart_of_clean (trimEnd (trimStart s)))
    by apply trimEnd_clean, trimStart_clean.
  apply trimEnd_idempotent.
Qed.

Lemma trim_nonempty (s : string) : trim s <> EmptyString -> s <> EmptyString.
Proof. intros H ->. now apply H. Qed.

Lemma split_free (sep : ascii) (s : string) :
  free_of sep s = true -> split sep s = [s].
Proof.
  induction s as [|c s IH]; [reflexivity|].
  cbn [free_of split]. intros [Hc Hs]%andb_true_iff.
  apply negb_true_iff in Hc. rewrite Hc, IH by assumption. reflexivity.
Qed.

Lemma split_at_separator (sep : ascii) (a b : string) :
  free_of sep a = true ->
  split sep (a ++ String sep b) = a :: split sep b.
Proof.
  induction a as [|c a IH]; intros Ha.
  - change (EmptyString ++ String sep b) with (String sep b).
    cbn [split]. now rewrite Ascii.eqb_refl.
  - cbn [free_of] in Ha. apply andb_true_iff in Ha as [Hc Ha].
    apply negb_true_iff in Hc.
    change (String c a ++ String sep b) with (String c (a ++ String sep b)).
    cbn [split]. rewrite Hc, IH by assumption. reflexivity.
Qed.

Lemma split_first (sep : ascii) (s : string) :
  exists piece pieces, split sep s = piece :: pieces.
Proof.
  destruct s as [|c s]; cbn [split]; [eauto|].
  destruct (Ascii.eqb c sep); [eauto|].
  destruct (split sep s); eauto.
Qed.

End BuiltIns.

Section Studios.

Lemma or_default_nonempty (x : option string) (d : string) :
  d <> EmptyString -> or_default x d <> EmptyString.
Proof.
  intros Hd. unfold or_default. destruct (truthy x) eqn:Hx; [|exact Hd].
  apply truthy_Some in Hx as (s & -> & Hs). exact Hs.
Qed.

Lemma append_nonempty_r (s t : string) : t <> EmptyString -> s ++ t <> EmptyString.
Proof.
  intros Ht. destruct s as [|c s]; [exact Ht|].
  change (String c s ++ t) with (String c (s ++ t)). discriminate.
Qed.

Lemma append_nonempty_l (s t : string) : s <> EmptyString -> s ++ t <> EmptyString.
Proof.
  destruct s as [|c s]; [congruence|]. intros _.
  change (String c s ++ t) with (String c (s ++ t)). discriminate.
Qed.

Lemma after_loop_resolved (key : option string) (op : Operation) (s : string) :
  after_loop key op = Resolved s -> s <> EmptyString.
Proof.
  unfold after_loop. destruct (error op); [discriminate|].
  destruct (truthy (videoUri op)); [|discriminate].
  intros [= <-]. apply append_nonempty_r, append_nonempty_l. discriminate.
Qed.

Lemma generateVeoVideo_resolved_nonempty (fuel : nat) (w : World) (apiKey : option string)
    (prompt imageBase64 mimeType : string) (aspectRatio : AspectRatio)
    (s : string) (st : State) :
  run (generateVeoVideo fuel apiKey prompt imageBase64 mimeType aspectRatio) w
    = (Resolved s, st) ->
  s <> EmptyString.
Proof.
  rewrite generateVeoVideo_run.
  destruct (truthy (effectiveKey w apiKey)); [|discriminate]. cbv zeta.
  destruct (generateVideos_response w) as [op0|e]; [|discriminate].
  destruct (poll_loop fuel _ op0 w _) as [[op|e|] st1]; [|discriminate..].
  intros [= H _]. now apply after_loop_resolved in H.
Qed.

Lemma on_progress_iterations (ai : GoogleGenAI) (ops : list Operation)
    (s : VideoGenerationState) :
  fold_left VeoStudio.on_progress (flat_map (iteration ai) ops) s
  = match ops with
    | [] => s
    | _ :: _ =>
        mkVideoGenerationState (vg_isGenerating s) "Still rendering..."
          (vg_videoUri s) (vg_error s)
    end.
Proof.
  revert s. induction ops as [|op ops IH]; intros s; [reflexivity|].
  cbn [flat_map]. rewrite fold_left_app, IH. cbn.
  destruct ops; reflexivity.
Qed.

(** The message on display while a run is pending. *)
Lemma pending_progress (fuel : nat) (w : World) (apiKey : option string)
    (prompt imageBase64 mimeType : string) (aspectRatio : AspectRatio) (st : State)
    (s0 : VideoGenerationState) :
  run (generateVeoVideo fuel apiKey prompt imageBase64 mimeType aspectRatio) w
    = (Pending, st) ->
  polls st = fuel /\
  fold_left VeoStudio.on_progress (trace st) s0
  = mkVideoGenerationState (vg_isGenerating s0)
      (match fuel with
       | O => "Rendering video... This may take a moment."
       | S _ => "Still rendering..."
       end) (vg_videoUri s0) (vg_error s0).
Proof.
  intros Hrun.
  destruct (truthy (effectiveKey w apiKey)) eqn:Hkey;
    [|rewrite generateVeoVideo_no_key in Hrun by assumption; discriminate].
  destruct (generateVeoVideo_spec _ _ _ _ _ _ _ _ _ Hrun Hkey)
    as (ops & Hl & Ht & H0 & Ho).
  assert (Hp : polls st = fuel).
  { rewrite generateVeoVideo_run, Hkey in Hrun. cbv zeta in Hrun.
    destruct (generateVideos_response w) as [op0|e]; [|discriminate].
    destruct (poll_loop fuel _ op0 w _) as [[op|e|] st1] eqn:Hloop.
    - injection Hrun as Hrun _. now apply after_loop_settled in Hrun.
    - discriminate.
    - injection Hrun as <-. now apply poll_loop_pending in Hloop. }
  split; [exact Hp|]. rewrite Ht.
  destruct (generateVideos_response w) as [op0|e] eqn:Hsub.
  - change (Progress "Rendering video... This may take a moment."
            :: flat_map (iteration (mkGoogleGenAI (to_String (effectiveKey w apiKey)))) ops)
      with ([Progress "Rendering video... This may take a moment."]
            ++ flat_map (iteration (mkGoogleGenAI (to_String (effectiveKey w apiKey)))) ops)%list.
    rewrite !fold_left_app, on_progress_iterations. cbn.
    rewrite <- Hp, <- Hl. destruct ops; reflexivity.
  - exfalso. unfold final_outcome, loop_outcome in Ho.
    rewrite (H0 e eq_refl) in Ho. cbn [last_response] in Ho. rewrite Hsub in Ho.
    discriminate.
Qed.

(** X19: [handleGenerate] of VeoStudio, with the key ready and a picked
    image that contains a comma (as every data URL does), always
    returns, and leaves the component in one of three states: a video
    shown with [Done!] and a non-empty URI, a non-empty error shown with
    no video, or still generating with the last progress message on
    display. *)
Theorem veo_handleGenerate_outcomes (fuel : nat) (props : VeoStudio.Props)
    (h : VeoStudio.Hooks) (w : World) (header rest : string) :
  VeoStudio.selectedImage h = Some (header ++ String "," rest) ->
  free_of "," header = true ->
  VeoStudio.apiKeyReady props = true ->
  exists h' st,
    VeoStudio.handleGenerate fuel props h w = Some (h', st) /\
    ((exists uri,
        uri <> EmptyString /\
        VeoStudio.state h' = mkVideoGenerationState false "Done!" (Some uri) None)
     \/ (exists msg,
           msg <> EmptyString /\
           VeoStudio.state h' = mkVideoGenerationState false EmptyString None (Some msg))
     \/ (polls st = fuel /\
         VeoStudio.state h'
         = mkVideoGenerationState true
             (match fuel with
              | O => "Rendering video... This may take a moment."
              | S _ => "Still rendering..."
              end) None None)).
Proof.
  intros Himg Hh Hready. unfold VeoStudio.handleGenerate.
  assert (Htruthy : truthy (VeoStudio.selectedImage h) = true).
  { rewrite Himg. apply Some_truthy. apply append_nonempty_r. discriminate. }
  rewrite Htruthy, Hready, Himg. cbn [negb orb to_String].
  rewrite split_at_separator by assumption.
  destruct (split_first "," rest) as (base64Data & pieces & ->). cbn [nth_error].
  destruct (run _ w) as [[uri|err|] st] eqn:Hrun; eexists; eexists;
    (split; [reflexivity|]).
  - left. exists uri. split; [|reflexivity].
    eapply generateVeoVideo_resolved_nonempty. exact Hrun.
  - right. left. eexists. split; [|reflexivity].
    apply or_default_nonempty. discriminate.
  - right. right. cbn [VeoStudio.state VeoStudio.setState].
    exact (pending_progress _ _ _ _ _ _ _ _ _ Hrun).
Qed.

Lemma veo_handleGenerate_outcomes_witness :
  exists h' st,
    VeoStudio.handleGenerate 3 (VeoStudio.mkProps true None) veo_hooks world_three_polls
    = Some (h', st) /\
    ((exists uri,
        uri <> EmptyString /\
        VeoStudio.state h' = mkVideoGenerationState false "Done!" (Some uri) None)
     \/ (exists msg,
           msg <> EmptyString /\
           VeoStudio.state h' = mkVideoGenerationState false EmptyString None (Some msg))
     \/ (polls st = 3%nat /\
         VeoStudio.state h' = mkVideoGenerationState true "Still rendering..." None None)).
Proof.
  apply (veo_handleGenerate_outcomes 3 (VeoStudio.mkProps true None) veo_hooks
           world_three_polls "data:image/png;base64" "aW1n"); reflexivity.
Defined.

(** X20: for a picked image [header,data] (a data URL), [handleGenerate]
    submits exactly [data], the part after the comma, with the picked
    MIME type and aspect ratio, and the prompt or, if that is empty,
    [Animate this image]. *)
Theorem veo_handleGenerate_sends_image (fuel : nat) (props : VeoStudio.Props)
    (h : VeoStudio.Hooks) (w : World) (header data : string) :
  VeoStudio.selectedImage h = Some (header ++ String "," data) ->
  free_of "," header = true ->
  free_of "," data = true ->
  VeoStudio.apiKeyReady props = true ->
  truthy (effectiveKey w (VeoStudio.apiKey props)) = true ->
  exists h' st,
    VeoStudio.handleGenerate fuel props h w = Some (h', st) /\
    nth_error (trace st) 1
    = Some (GenerateVideos
              (mkGoogleGenAI (to_String (effectiveKey w (VeoStudio.apiKey props))))
              (mkGenerateVideosParameters "veo-3.1-fast-generate-preview"
                 (if String.eqb (VeoStudio.prompt h) EmptyString
                  then "Animate this image" else VeoStudio.prompt h)
                 data (VeoStudio.imageMimeType h) 1 "720p" (VeoStudio.aspectRatio h))).
Proof.
  intros Himg Hh Hd Hready Hkey. unfold VeoStudio.handleGenerate.
  assert (Htruthy : truthy (VeoStudio.selectedImage h) = true).
  { rewrite Himg. apply Some_truthy. apply append_nonempty_r. discriminate. }
  rewrite Htruthy, Hready, Himg. cbn [negb orb to_String].
  rewrite split_at_separator, split_free by assumption. cbn [nth_error].
  destruct (run _ w) as [o st] eqn:Hrun.
  destruct (generateVeoVideo_spec _ _ _ _ _ _ _ _ _ Hrun Hkey) as (ops & _ & Ht & _).
  assert (Hnth : nth_error (trace st) 1
                 = Some (GenerateVideos
                           (mkGoogleGenAI (to_String (effectiveKey w (VeoStudio.apiKey props))))
                           (submission (VeoStudio.prompt h) data (VeoStudio.imageMimeType h)
                              (VeoStudio.aspectRatio h)))).
  { rewrite Ht. reflexivity. }
  unfold submission, or_default in Hnth. cbn [truthy to_String] in Hnth.
  destruct (String.eqb (VeoStudio.prompt h) EmptyString); cbn [negb] in Hnth;
    destruct o; eexists; eexists; (split; [reflexivity | exact Hnth]).
Qed.

Lemma veo_handleGenerate_sends_image_witness :
  exists h' st,
    VeoStudio.handleGenerate 3 (VeoStudio.mkProps true None) veo_hooks world_three_polls
    = Some (h', st) /\
    nth_error (trace st) 1
    = Some (GenerateVideos (mkGoogleGenAI "K")
              (mkGenerateVideosParameters "veo-3.1-fast-generate-preview" "a cat"
                 "aW1n" "image/png" 1 "720p" LANDSCAPE)).
Proof.
  apply (veo_handleGenerate_sends_image 3 (VeoStudio.mkProps true None) veo_hooks
           world_three_polls "data:image/png;base64" "aW1n"); reflexivity.
Defined.

(** X21: [handleEnhancePrompt], once past its guard, always ends with
    [isEnhancing] off and a non-empty prompt, touches nothing else, and
    keeps the prompt as it was when the service fails. *)
Theorem veo_handleEnhancePrompt_outcomes (props : VeoStudio.Props)
    (h h' : VeoStudio.Hooks) (w : World) (st : State) :
  VeoStudio.handleEnhancePrompt props h w = (h', st) ->
  trim (VeoStudio.prompt h) <> EmptyString ->
  VeoStudio.apiKeyReady props = true ->
  VeoStudio.isEnhancing h' = false /\
  VeoStudio.prompt h' <> EmptyString /\
  VeoStudio.state h' = VeoStudio.state h /\
  VeoStudio.selectedImage h' = VeoStudio.selectedImage h /\
  (forall e, fst (run (enhancePrompt (VeoStudio.apiKey props) (VeoStudio.prompt h)) w)
             = Rejected e ->
             VeoStudio.prompt h' = VeoStudio.prompt h).
Proof.
  unfold VeoStudio.handleEnhancePrompt. intros H Htrim Hready.
  rewrite (Some_truthy _ Htrim), Hready in H. cbn [negb orb] in H.
  cbv zeta in H. cbn [VeoStudio.apiKey VeoStudio.prompt VeoStudio.setIsEnhancing] in H.
  pose proof (trim_nonempty _ Htrim) as Hne.
  destruct (run _ w) as [[enhanced|err|] st1] eqn:Hrun.
  - injection H as <- <-. cbn. repeat split; auto; [|discriminate].
    rewrite enhancePrompt_run in Hrun.
    destruct (truthy (effectiveKey w (VeoStudio.apiKey props))); [|discriminate].
    destruct (generateContent_response w); [|discriminate].
    injection Hrun as <- _. now apply or_default_nonempty.
  - injection H as <- <-. cbn. repeat split; auto.
  - exfalso. rewrite enhancePrompt_run in Hrun.
    destruct (truthy (effectiveKey w (VeoStudio.apiKey props))); [|discriminate].
    destruct (generateContent_response w); discriminate.
Qed.

Lemma veo_handleEnhancePrompt_outcomes_witness :
  exists h' st,
    VeoStudio.handleEnhancePrompt (VeoStudio.mkProps true None) veo_hooks
      (content_world (Some "K") (Thrown (Error "503"))) = (h', st) /\
    VeoStudio.isEnhancing h' = false /\
    VeoStudio.prompt h' = "a cat".
Proof.
  eexists. eexists. split; [vm_compute; reflexivity|].
  destruct (veo_handleEnhancePrompt_outcomes (VeoStudio.mkProps true None) veo_hooks _
              (content_world (Some "K") (Thrown (Error "503"))) _ eq_refl)
    as (H1 & _ & _ & _ & H5); [discriminate | reflexivity |].
  split; [exact H1 | exact (H5 (Error "503") eq_refl)].
Defined.

Lemma truthy_Some_false (s : string) : truthy (Some s) = false -> s = EmptyString.
Proof.
  cbn. destruct (String.eqb_spec s EmptyString); [auto | discriminate].
Qed.

Lemma audio_settles (h : AudioStudio.Hooks) (w : World) (apiKey : option string)
    (req : GenerateContentParameters) o st :
  speech_result w apiKey req = (o, st) ->
  (object_urls (trace st) <> [] /\ exists url, o = Resolved url)
  \/ (object_urls (trace st) = [] /\
      exists e, SpeechFailure w apiKey e /\ o = Rejected e).
Proof.
  intros H. destruct (speech_result_spec _ _ _ _ _ H) as (Hset & Hiff & _ & Hurls).
  destruct o as [url|e|]; [left | right | congruence].
  - split; [|eauto]. destruct (object_urls (trace st)); [discriminate Hurls | discriminate].
  - split; [exact Hurls|]. exists e. split; [now apply Hiff | reflexivity].
Qed.

(** X22: [handleGenerate] of AudioStudio either does nothing (blank text,
    key not ready, or clone mode without a sample), or ends with an audio
    URL and no error, or with a non-empty error and no audio, the error
    being one of the service's failures; it never stays generating. *)
Theorem audio_handleGenerate_outcomes (props : AudioStudio.Props)
    (h h' : AudioStudio.Hooks) (w : World) (st : State) :
  AudioStudio.handleGenerate props h w = (h', st) ->
  (h' = h /\ st = init /\
   (trim (AudioStudio.text h) = EmptyString
    \/ AudioStudio.apiKeyReady props = false
    \/ (AudioStudio.mode h = AudioStudio.CLONE /\ AudioStudio.cloneFile h = None)))
  \/ (trim (AudioStudio.text h) <> EmptyString /\
      AudioStudio.apiKeyReady props = true /\
      object_urls (trace st) <> [] /\
      exists url,
        AudioStudio.state h' = mkAudioGenerationState false (Some url) None)
  \/ (trim (AudioStudio.text h) <> EmptyString /\
      AudioStudio.apiKeyReady props = true /\
      object_urls (trace st) = [] /\
      exists e,
        SpeechFailure w (AudioStudio.apiKey props) e /\
        message_or e "Failed to generate speech" <> EmptyString /\
        AudioStudio.state h'
        = mkAudioGenerationState false None
            (Some (message_or e "Failed to generate speech"))).
Proof.
  unfold AudioStudio.handleGenerate. intros H.
  destruct (truthy (Some (trim (AudioStudio.text h)))) eqn:Htext; cbn [negb orb] in H.
  2:{ injection H as <- <-. left. apply truthy_Some_false in Htext. auto. }
  apply truthy_Some in Htext as (t & [= <-] & Htext).
  destruct (AudioStudio.apiKeyReady props) eqn:Hready; cbn [negb] in H.
  2:{ injection H as <- <-. left. auto. }
  assert (Hcases :
    forall req,
      match speech_result w (AudioStudio.apiKey props) req with
      | (Resolved url, st0) =>
          (AudioStudio.setState h (mkAudioGenerationState false (Some url) None), st0)
      | (Rejected err, st0) =>
          (AudioStudio.setState h
             (mkAudioGenerationState false None
                (Some (message_or err "Failed to generate speech"))), st0)
      | (Pending, st0) =>
          (AudioStudio.setState h (mkAudioGenerationState true None None), st0)
      end = (h', st) ->
      (object_urls (trace st) <> [] /\
       exists url, AudioStudio.state h' = mkAudioGenerationState false (Some url) None)
      \/ (object_urls (trace st) = [] /\
          exists e,
            SpeechFailure w (AudioStudio.apiKey props) e /\
            message_or e "Failed to generate speech" <> EmptyString /\
            AudioStudio.state h'
            = mkAudioGenerationState false None
                (Some (message_or e "Failed to generate speech")))).
  { intros req Hm.
    destruct (speech_result w (AudioStudio.apiKey props) req) as [o st0] eqn:Hsr.
    destruct (audio_settles h _ _ _ _ _ Hsr) as [(Hu & url & ->)|(Hu & e & HF & ->)];
      injection Hm as <- <-.
    - left. split; [exact Hu|]. eauto.
    - right. split; [exact Hu|]. exists e. split; [exact HF|].
      split; [|reflexivity]. apply or_default_nonempty. discriminate. }
  destruct (AudioStudio.mode h) eqn:Hmode.
  - cbn [andb] in H. rewrite generateTextToSpeech_run in H.
    destruct (Hcases _ H) as [(Hu & Hs)|(Hu & Hs)]; [right; left | right; right];
      (split; [assumption|]); (split; [reflexivity|]); (split; assumption).
  - destruct (AudioStudio.cloneFile h) as [f|] eqn:Hfile; cbn [andb] in H.
    + rewrite generateClonedSpeech_run in H.
      destruct (Hcases _ H) as [(Hu & Hs)|(Hu & Hs)]; [right; left | right; right];
        (split; [assumption|]); (split; [reflexivity|]); (split; assumption).
    + injection H as <- <-. left.
      split; [reflexivity|]. split; [reflexivity|]. right. right.
      split; reflexivity || assumption.
Qed.

Lemma audio_handleGenerate_outcomes_witness :
  exists h' st,
    AudioStudio.handleGenerate (AudioStudio.mkProps true None) audio_hooks
      (content_world (Some "K") (Ok (mkGenerateContentResponse None (Some "abcd"))))
    = (h', st) /\
    AudioStudio.state h' = mkAudioGenerationState false (Some "blob:audio") None.
Proof.
  eexists. eexists. split; [vm_compute; reflexivity|].
  destruct (audio_handleGenerate_outcomes (AudioStudio.mkProps true None) audio_hooks _
              (content_world (Some "K") (Ok (mkGenerateContentResponse None (Some "abcd"))))
              _ eq_refl)
    as [(_ & H & _)|[(_ & _ & _ & url & H)|(_ & _ & H & _)]];
    [discriminate H | reflexivity | discriminate H].
Defined.

End Studios.

Section Keys.

Lemma getItem_setItem (ls : Storage) (key value : string) :
  getItem (setItem ls key value) key = Some value.
Proof. unfold getItem, setItem. now rewrite String.eqb_refl. Qed.

Lemma getItem_removeItem (ls : Storage) (key : string) :
  getItem (removeItem ls key) key = None.
Proof. unfold getItem, removeItem. now rewrite String.eqb_refl. Qed.

Lemma getItem_other (ls : Storage) (key key' : string) (v : option string) :
  key' <> key ->
  getItem (fun k => if String.eqb k key then v else ls k) key' = getItem ls key'.
Proof.
  intros Hne. unfold getItem.
  destruct (String.eqb_spec key' key); [contradiction | reflexivity].
Qed.

(** X23: [initKey], when it returns, marks the key ready exactly when a
    non-empty key is stored or AI Studio reports a selected key; it loads
    the stored key into the hooks and otherwise leaves the custom key,
    the mode and the settings flag alone. *)
Theorem initKey_ready_iff (aistudio : option AiStudio) (ls : Storage) (h h' : App.Hooks) :
  App.initKey aistudio ls h = Ok h' ->
  (App.apiKeyReady h' = true <->
     truthy (getItem ls "gemini_api_key") = true \/ checkApiKey aistudio = Ok true) /\
  App.customApiKey h'
  = (if truthy (getItem ls "gemini_api_key")
     then to_String (getItem ls "gemini_api_key")
     else App.customApiKey h) /\
  App.mode h' = App.mode h /\
  App.showSettings h' = App.showSettings h.
Proof.
  unfold App.initKey. destruct (checkApiKey aistudio) as [injected|e]; [|discriminate].
  cbn [result_bind].
  destruct (truthy (getItem ls "gemini_api_key")); [|destruct injected];
    intros [= <-]; cbn; repeat split; auto; try discriminate.
  intros [H|H]; discriminate.
Qed.

Lemma initKey_ready_iff_witness :
  exists h',
    App.initKey (Some (mkAiStudio (Some (Ok true)) None)) empty_storage (app_hooks EmptyString)
    = Ok h' /\
    App.apiKeyReady h' = true /\
    App.customApiKey h' = EmptyString.
Proof.
  eexists. split; [reflexivity|].
  destruct (initKey_ready_iff (Some (mkAiStudio (Some (Ok true)) None)) empty_storage
              (app_hooks EmptyString) _ eq_refl) as (Hr & Hk & _).
  split; [apply Hr; right; reflexivity | exact Hk].
Defined.

(** X24: after [handleSaveCustomKey] the key is ready exactly when one is
    stored; a stored key is the trimmed custom key, non-empty and without
    surrounding white space; no other item of the storage changes, and
    the custom key in the hooks is not trimmed. *)
Theorem handleSaveCustomKey_stores_trimmed (ls ls' : Storage) (h h' : App.Hooks) :
  App.handleSaveCustomKey ls h = (h', ls') ->
  (App.apiKeyReady h' = true <-> getItem ls' "gemini_api_key" <> None) /\
  (forall k, getItem ls' "gemini_api_key" = Some k ->
     k = trim (App.customApiKey h) /\ k <> EmptyString /\ trim k = k) /\
  (forall key, key <> "gemini_api_key" -> getItem ls' key = getItem ls key) /\
  App.customApiKey h' = App.customApiKey h.
Proof.
  unfold App.handleSaveCustomKey. intros H.
  destruct (truthy (Some (trim (App.customApiKey h)))) eqn:Hk; injection H as <- <-.
  - apply truthy_Some in Hk as (t & [= <-] & Hne).
    rewrite getItem_setItem. cbn [App.apiKeyReady App.setShowSettings App.setApiKeyReady
                                  App.customApiKey].
    split; [split; [discriminate | reflexivity]|].
    split; [intros k [= <-]; auto using trim_idempotent|].
    split; [|reflexivity]. intros key Hkey. now apply getItem_other.
  - rewrite getItem_removeItem. cbn [App.apiKeyReady App.setApiKeyReady App.customApiKey].
    split; [split; [discriminate | congruence]|].
    split; [discriminate|].
    split; [|reflexivity]. intros key Hkey. now apply getItem_other.
Qed.

Lemma handleSaveCustomKey_stores_trimmed_witness :
  getItem (snd (App.handleSaveCustomKey empty_storage (app_hooks "  AIzaSy-demo ")))
    "gemini_api_key" = Some "AIzaSy-demo".
Proof.
  destruct (handleSaveCustomKey_stores_trimmed empty_storage _ (app_hooks "  AIzaSy-demo ") _
              eq_refl) as (_ & H & _).
  destruct (getItem _ "gemini_api_key") as [k|] eqn:Hk; [|vm_compute in Hk; discriminate Hk].
  destruct (H k eq_refl) as (-> & _). reflexivity.
Defined.

(** X25: a key saved with [handleSaveCustomKey] survives a reload: a
    later [initKey], whatever AI Studio reports, marks the key ready and
    loads the trimmed key; saving also closes the settings. *)
Theorem saved_key_survives_reload (aistudio : option AiStudio) (injected : bool)
    (ls ls1 : Storage) (h h1 h0 : App.Hooks) :
  App.handleSaveCustomKey ls h = (h1, ls1) ->
  trim (App.customApiKey h) <> EmptyString ->
  checkApiKey aistudio = Ok injected ->
  exists h2,
    App.initKey aistudio ls1 h0 = Ok h2 /\
    App.apiKeyReady h2 = true /\
    App.customApiKey h2 = trim (App.customApiKey h) /\
    App.apiKeyReady h1 = true /\
    App.showSettings h1 = false.
Proof.
  unfold App.handleSaveCustomKey, App.initKey. intros H Hne Hcheck.
  rewrite (Some_truthy _ Hne) in H. injection H as <- <-.
  rewrite Hcheck, getItem_setItem, (Some_truthy _ Hne). cbn [result_bind to_String].
  eexists. split; [reflexivity|]. repeat split.
Qed.

Lemma saved_key_survives_reload_witness :
  exists h2,
    App.initKey None (snd (App.handleSaveCustomKey empty_storage (app_hooks "  AIzaSy-demo ")))
      (app_hooks EmptyString) = Ok h2 /\
    App.apiKeyReady h2 = true /\
    App.customApiKey h2 = "AIzaSy-demo".
Proof.
  destruct (saved_key_survives_reload None false empty_storage _
              (app_hooks "  AIzaSy-demo ") _ (app_hooks EmptyString) eq_refl)
    as (h2 & H & Hr & Hk & _); [discriminate | reflexivity |].
  exists h2. split; [exact H|]. split; [exact Hr | exact Hk].
Defined.

(** X26: [clearKey] removes the stored key and empties the custom key; a
    later [initKey] is ready only if AI Studio reports a selected key. *)
Theorem cleared_key_is_gone (aistudio : option AiStudio) (injected : bool)
    (ls ls1 : Storage) (h h1 : App.Hooks) :
  App.clearKey ls h = (h1, ls1) ->
  checkApiKey aistudio = Ok injected ->
  App.apiKeyReady h1 = false /\
  App.customApiKey h1 = EmptyString /\
  getItem ls1 "gemini_api_key" = None /\
  exists h2,
    App.initKey aistudio ls1 h1 = Ok h2 /\
    App.apiKeyReady h2 = injected /\
    App.customApiKey h2 = EmptyString.
Proof.
  unfold App.clearKey, App.initKey. intros [= <- <-] Hcheck.
  rewrite Hcheck, getItem_removeItem. cbn [result_bind truthy].
  repeat split. destruct injected; eexists; repeat split.
Qed.

Lemma cleared_key_is_gone_witness :
  exists h2,
    App.initKey None (snd (App.clearKey (setItem empty_storage "gemini_api_key" "AIzaSy-demo")
                             (app_hooks "AIzaSy-demo")))
      (fst (App.clearKey (setItem empty_storage "gemini_api_key" "AIzaSy-demo")
              (app_hooks "AIzaSy-demo"))) = Ok h2 /\
    App.apiKeyReady h2 = false.
Proof.
  destruct (cleared_key_is_gone None false
              (setItem empty_storage "gemini_api_key" "AIzaSy-demo") _
              (app_hooks "AIzaSy-demo") _ eq_refl eq_refl)
    as (_ & _ & _ & h2 & H & Hr & _).
  exists h2. split; [exact H | exact Hr].
Defined.

(** X27: [handleSelectKey] marks the key ready whenever the selection
    does not reject, also where AI Studio is absent; with no custom key
    and no environment key, generating a video then ends with the
    [API Key not found] error on display and no request sent. *)
Theorem optimistic_ready_without_key (aistudio : option AiStudio) (h : App.Hooks)
    (fuel : nat) (v : VeoStudio.Hooks) (w : World) (header data : string) :
  fst (openApiKeySelection aistudio) = Ok tt ->
  App.customApiKey h = EmptyString ->
  truthy (env_API_KEY w) = false ->
  VeoStudio.selectedImage v = Some (header ++ String "," data) ->
  free_of "," header = true ->
  free_of "," data = true ->
  exists h1,
    App.handleSelectKey aistudio h = Ok h1 /\
    App.apiKeyReady h1 = true /\
    VeoStudio.handleGenerate fuel (App.veo_props h1) v w
    = Some (VeoStudio.setState v
              (mkVideoGenerationState false EmptyString None (Some API_KEY_NOT_FOUND)),
            init).
Proof.
  intros Hopen Hkey Henv Himg Hh Hd.
  unfold App.handleSelectKey. rewrite Hopen. cbn [result_bind].
  eexists. split; [reflexivity|]. split; [reflexivity|].
  unfold VeoStudio.handleGenerate.
  assert (Htruthy : truthy (VeoStudio.selectedImage v) = true).
  { rewrite Himg. apply Some_truthy. apply append_nonempty_r. discriminate. }
  rewrite Htruthy, Himg.
  cbn [App.veo_props App.apiKeyReady App.setApiKeyReady App.customApiKey
       VeoStudio.apiKeyReady VeoStudio.apiKey negb orb to_String].
  rewrite split_at_separator, split_free by assumption. cbn [nth_error].
  rewrite generateVeoVideo_no_key; [reflexivity|].
  rewrite Hkey. unfold effectiveKey, js_or. cbn. exact Henv.
Qed.

Lemma optimistic_ready_without_key_witness :
  exists h1,
    App.handleSelectKey None (app_hooks EmptyString) = Ok h1 /\
    App.apiKeyReady h1 = true /\
    VeoStudio.handleGenerate 3 (App.veo_props h1) veo_hooks world_no_key
    = Some (VeoStudio.setState veo_hooks
              (mkVideoGenerationState false EmptyString None (Some API_KEY_NOT_FOUND)),
            init).
Proof.
  apply (optimistic_ready_without_key None (app_hooks EmptyString) 3 veo_hooks world_no_key
           "data:image/png;base64" "aW1n"); reflexivity.
Defined.

(** X28: after a key is saved, both studios build their client with the
    custom key exactly as typed, surrounding white space included and
    whatever the environment key, while the storage holds it trimmed. *)
Theorem saved_key_is_used_verbatim (ls ls1 : Storage) (h h1 : App.Hooks)
    (w : World) (st : State) :
  App.handleSaveCustomKey ls h = (h1, ls1) ->
  trim (App.customApiKey h) <> EmptyString ->
  getAiClient (VeoStudio.apiKey (App.veo_props h1)) w st
  = (Resolved (mkGoogleGenAI (App.customApiKey h)), st) /\
  getAiClient (AudioStudio.apiKey (App.audio_props h1)) w st
  = (Resolved (mkGoogleGenAI (App.customApiKey h)), st) /\
  getItem ls1 "gemini_api_key" = Some (trim (App.customApiKey h)).
Proof.
  unfold App.handleSaveCustomKey. intros H Hne.
  rewrite (Some_truthy _ Hne) in H. injection H as <- <-.
  rewrite getItem_setItem, !getAiClient_run.
  cbn [App.veo_props App.audio_props VeoStudio.apiKey AudioStudio.apiKey
       App.customApiKey App.setShowSettings App.setApiKeyReady].
  unfold effectiveKey, js_or.
  rewrite (Some_truthy _ (trim_nonempty _ Hne)).
  rewrite (Some_truthy _ (trim_nonempty _ Hne)). auto.
Qed.

Lemma saved_key_is_used_verbatim_witness :
  getAiClient
    (VeoStudio.apiKey
       (App.veo_props (fst (App.handleSaveCustomKey empty_storage (app_hooks "  AIzaSy-demo ")))))
    world_no_key init
  = (Resolved (mkGoogleGenAI "  AIzaSy-demo "), init).
Proof.
  destruct (saved_key_is_used_verbatim empty_storage _ (app_hooks "  AIzaSy-demo ") _
              world_no_key init eq_refl) as (H & _); [discriminate | exact H].
Defined.

End Keys.
